(** * Delta ASDA-AB servo controller: JOG mode over Modbus RTU

    A shallow embedding of [servo_control.py] (class [ServoController]) and
    the properties of its JOG register protocol: speed clamping, direction
    tracking, the speed/command split of register P4-05, the fault catalogue
    and the behaviour on transport failures.

    Python integers are [Z].  A method is a computation over the world it can
    touch (the controller object, the console and the serial line); an
    exception is an outcome that keeps the world as the statements before the
    [raise] left it, and [try ... except Exception] is [try_except]. *)

From stdpp Require Import gmap strings list pretty.
From Stdlib Require Import ZArith Lia.

Open Scope Z_scope.

(** ** Outcomes of a Python call *)

(** Every exception the code can meet is an [Exception]; the handlers only
    format it with [str(e)]. *)
Inductive exn : Type :=
| Exception (msg : string).

Definition str_exn (e : exn) : string :=
  match e with Exception msg => msg end.

Inductive outcome (A : Type) : Type :=
| Return (a : A)
| Raise (e : exn).

Arguments Return {A} a.
Arguments Raise {A} e.

Definition succeeded {A} (r : outcome A) : bool :=
  match r with Return _ => true | Raise _ => false end.

(** ** The transport: [minimalmodbus.Instrument]

    The library is not part of the repository.  Its two calls used by the
    controller are taken as an interface: each exchange either answers or
    raises, and moves the instrument (port and device) to a new state.
    [read_register] with the default [signed=False] decodes one 16-bit
    register, hence the range law. *)
Class Transport (T : Type) : Type := {
  read_register : T -> Z -> outcome Z * T;
  write_register : T -> Z -> Z -> outcome unit * T;
  read_register_u16 : forall t addr v t',
    read_register t addr = (Return v, t') -> 0 <= v <= 65535
}.

(** One request on the serial line, with its outcome. *)
Inductive exchange : Type :=
| Read (addr : Z) (r : outcome Z)
| Write (addr value : Z) (r : outcome unit).

(** ** Static data *)

(** [JOG_STEP = 25] *)
Definition JOG_STEP : Z := 25.

(** [ServoController.REGISTERS] *)
Definition REGISTERS : gmap string Z :=
  list_to_map [("VERSION", 0); ("ERROR", 1); ("JOG", 1029)].

(** [ServoController.JOG_COMMANDS] *)
Definition JOG_COMMANDS : gmap string Z :=
  list_to_map
    [("FORWARD", 4999); ("REVERSE", 4998); ("STOP", 5000);
     ("SPEED_MIN", 0); ("SPEED_MAX", 3000)].

(** The dictionary literal [error_descriptions] of [check_connection]. *)
Definition error_descriptions : gmap Z string :=
  list_to_map
    [(1, "Перегрузка по току");
     (2, "Перенапряжение");
     (3, "Пониженное напряжение");
     (4, "Смещение Z-импульса");
     (5, "Ошибка рекуперации");
     (6, "Перегрузка");
     (7, "Превышение скорости");
     (8, "Некорректная команда импульсного управления");
     (9, "Чрезмерное отклонение");
     (10, "Ошибка watchdog");
     (13, "Активирован аварийный останов");
     (14, "Ошибка обратного предела");
     (15, "Ошибка прямого предела");
     (20, "Ошибка последовательной связи");
     (23, "Предупреждение о перегрузке")].

(** [error_descriptions.get(error_code, "Неизвестная ошибка")] *)
Definition describe (error_code : Z) : string :=
  default "Неизвестная ошибка" (error_descriptions !! error_code).

(** [current_direction] is [None] (stopped), ["forward"] or ["reverse"]. *)
Inductive direction : Type :=
| forward
| reverse.

(** ** The world of a controller *)

Section Controller.

Context {T : Type} `{Transport T}.

(** The attributes of [self] that the operations use, the console output
    (one entry per [print], oldest first) and the journal of the exchanges
    issued on the instrument (oldest first). *)
Record World : Type := mkWorld {
  instrument : option T;
  current_speed : Z;
  current_direction : option direction;
  stdout : list string;
  wire : list exchange
}.

Definition M (A : Type) : Type := World -> outcome A * World.

Definition ret {A} (a : A) : M A := fun w => (Return a, w).

Definition raise {A} (e : exn) : M A := fun w => (Raise e, w).

Definition bind {A B} (m : M A) (k : A -> M B) : M B :=
  fun w =>
    match m w with
    | (Return a, w') => k a w'
    | (Raise e, w') => (Raise e, w')
    end.

(** [try: body  except Exception as e: handler] *)
Definition try_except {A} (body : M A) (handler : exn -> M A) : M A :=
  fun w =>
    match body w with
    | (Return a, w') => (Return a, w')
    | (Raise e, w') => handler e w'
    end.

End Controller.

Arguments World T : clear implicits.
Arguments M T A : clear implicits.

Declare Scope py_scope.
Delimit Scope py_scope with py.
Notation "x <- c ;; k" := (bind c (fun x => k))
  (at level 100, c at next level, right associativity) : py_scope.
Notation "c ;; k" := (bind c (fun _ => k))
  (at level 100, k at level 200, right associativity) : py_scope.
Open Scope py_scope.

Section Operations.

Context {T : Type} `{Transport T}.

(** [d[key]] on a dictionary: [KeyError] when the key is absent. *)
Definition subscript (d : gmap string Z) (key : string) : M T Z :=
  match d !! key with
  | Some v => ret v
  | None => raise (Exception ("'" +:+ key +:+ "'"))
  end.

Definition print (line : string) : M T unit :=
  fun w =>
    (Return tt,
     mkWorld (instrument w) (current_speed w) (current_direction w)
             (stdout w ++ [line]) (wire w)).

Definition get_current_speed : M T Z := fun w => (Return (current_speed w), w).

Definition get_current_direction : M T (option direction) :=
  fun w => (Return (current_direction w), w).

Definition set_current_speed (v : Z) : M T unit :=
  fun w =>
    (Return tt,
     mkWorld (instrument w) v (current_direction w) (stdout w) (wire w)).

Definition set_current_direction (d : option direction) : M T unit :=
  fun w =>
    (Return tt,
     mkWorld (instrument w) (current_speed w) d (stdout w) (wire w)).

(** [self.instrument.read_register(addr, functioncode=3)].  Before [connect]
    the attribute is [None] and the attribute access raises.  (Python looks
    the method up before it evaluates the address argument; the address is
    a subscript by a literal key of [REGISTERS], which cannot fail, so the
    methods below evaluate it first.) *)
Definition instrument_read_register (addr : Z) : M T Z :=
  fun w =>
    match instrument w with
    | None =>
        (Raise (Exception "'NoneType' object has no attribute 'read_register'"), w)
    | Some t =>
        let (r, t') := read_register t addr in
        (r, mkWorld (Some t') (current_speed w) (current_direction w)
                    (stdout w) (wire w ++ [Read addr r]))
    end.

(** [self.instrument.write_register(addr, value, functioncode=6)] *)
Definition instrument_write_register (addr value : Z) : M T unit :=
  fun w =>
    match instrument w with
    | None =>
        (Raise (Exception "'NoneType' object has no attribute 'write_register'"), w)
    | Some t =>
        let (r, t') := write_register t addr value in
        (r, mkWorld (Some t') (current_speed w) (current_direction w)
                    (stdout w) (wire w ++ [Write addr value r]))
    end.

End Operations.

(** ** The class [ServoController] *)

Section ServoController.

Context {T : Type} `{Transport T}.

(** [__init__], after the configuration has been loaded: no instrument yet,
    speed 20 rpm, stopped. *)
Definition __init__ : World T :=
  mkWorld None 20 None [] [].

(** What a successful [connect] does to the controller: the attribute
    [instrument] holds the opened [minimalmodbus.Instrument].  (Opening the
    port and the line that [connect] prints belong to the serial set-up,
    which is not modelled.) *)
Definition connected (t : T) (w : World T) : World T :=
  mkWorld (Some t) (current_speed w) (current_direction w) (stdout w) (wire w).

Definition check_connection : M T bool :=
  try_except
    (a_version <- subscript REGISTERS "VERSION";;
     version <- instrument_read_register a_version;;
     a_error <- subscript REGISTERS "ERROR";;
     error_code <- instrument_read_register a_error;;
     print "🔍 Связь установлена!";;
     print ("   Версия ПО: " +:+ pretty version);;
     if error_code =? 0 then
       print "✅ Отсутствуют ошибки (код 0)";;
       ret true
     else
       print ("⚠️  Обнаружена ошибка! Код: " +:+ pretty error_code);;
       let description := describe error_code in
       print ("   Описание: " +:+ description);;
       print "   Необходимо устранить ошибку перед управлением";;
       ret false)
    (fun e =>
       print ("❌ Ошибка при проверке связи: " +:+ str_exn e);;
       ret false).

Definition initialize_speed : M T unit :=
  try_except
    (a_jog <- subscript REGISTERS "JOG";;
     speed <- instrument_read_register a_jog;;
     speed_max <- subscript JOG_COMMANDS "SPEED_MAX";;
     if speed <=? speed_max then
       set_current_speed speed;;
       now <- get_current_speed;;
       print ("📊 Текущая скорость JOG считана из сервопривода: "
              +:+ pretty now +:+ " об/мин")
     else
       print ("ℹ️  Текущее значение регистра P4-05 (" +:+ pretty speed
              +:+ ") не является скоростью. Используется начальное значение 20 об/мин."))
    (fun e =>
       print ("⚠️  Не удалось прочитать текущую скорость: " +:+ str_exn e);;
       print "ℹ️  Используется начальное значение скорости (20 об/мин).").

Definition jog (command : Z) : M T bool :=
  try_except
    (a_jog <- subscript REGISTERS "JOG";;
     instrument_write_register a_jog command;;
     c_forward <- subscript JOG_COMMANDS "FORWARD";;
     (if command =? c_forward then
        set_current_direction (Some forward)
      else
        c_reverse <- subscript JOG_COMMANDS "REVERSE";;
        if command =? c_reverse then
          set_current_direction (Some reverse)
        else
          c_stop <- subscript JOG_COMMANDS "STOP";;
          if command =? c_stop then
            set_current_direction None
          else
            ret tt);;
     ret true)
    (fun e =>
       print ("❌ Ошибка при отправке JOG команды: " +:+ str_exn e);;
       ret false).

(** The range check at the head of [set_jog_speed]. *)
Definition clamp_speed (speed : Z) : M T Z :=
  speed_min <- subscript JOG_COMMANDS "SPEED_MIN";;
  if speed <? speed_min then
    subscript JOG_COMMANDS "SPEED_MIN"
  else
    speed_max <- subscript JOG_COMMANDS "SPEED_MAX";;
    if speed >? speed_max then
      subscript JOG_COMMANDS "SPEED_MAX"
    else
      ret speed.

Definition set_jog_speed (speed : Z) : M T bool :=
  try_except
    (speed <- clamp_speed speed;;
     a_jog <- subscript REGISTERS "JOG";;
     instrument_write_register a_jog speed;;
     set_current_speed speed;;
     d <- get_current_direction;;
     match d with
     | Some forward =>
         c_forward <- subscript JOG_COMMANDS "FORWARD";;
         jog c_forward;;
         ret tt
     | Some reverse =>
         c_reverse <- subscript JOG_COMMANDS "REVERSE";;
         jog c_reverse;;
         ret tt
     | None => ret tt
     end;;
     print ("🎯 Скорость установлена: " +:+ pretty speed +:+ " об/мин");;
     ret true)
    (fun e =>
       print ("❌ Ошибка при установке скорости JOG: " +:+ str_exn e);;
       ret false).

Definition increase_speed (increment : Z) : M T bool :=
  now <- get_current_speed;;
  let new_speed := now + increment in
  set_jog_speed new_speed.

Definition decrease_speed (decrement : Z) : M T bool :=
  now <- get_current_speed;;
  let new_speed := now - decrement in
  set_jog_speed new_speed.

Definition stop_jog : M T bool :=
  set_current_direction None;;
  c_stop <- subscript JOG_COMMANDS "STOP";;
  jog c_stop.

Definition reset_speed_to_initial : M T bool :=
  try_except
    (set_jog_speed 20;;
     print "🔄 Скорость сброшена до начального значения (20 об/мин)";;
     ret true)
    (fun e =>
       print ("❌ Не удалось сбросить скорость: " +:+ str_exn e);;
       ret false).

Definition close : M T unit :=
  fun w =>
    match instrument w with
    | Some _ =>
        (stop_jog;;
         reset_speed_to_initial;;
         print "⏹️  Остановлено и соединение закрыто") w
    | None => ret tt w
    end.

End ServoController.

(** ** Names for the entries of the two register dictionaries *)

Definition JOG : Z := Eval vm_compute in default 0 (REGISTERS !! "JOG").
Definition VERSION : Z := Eval vm_compute in default 0 (REGISTERS !! "VERSION").
Definition ERROR : Z := Eval vm_compute in default 0 (REGISTERS !! "ERROR").
Definition FORWARD : Z := Eval vm_compute in default 0 (JOG_COMMANDS !! "FORWARD").
Definition REVERSE : Z := Eval vm_compute in default 0 (JOG_COMMANDS !! "REVERSE").
Definition STOP : Z := Eval vm_compute in default 0 (JOG_COMMANDS !! "STOP").
Definition SPEED_MIN : Z := Eval vm_compute in default 0 (JOG_COMMANDS !! "SPEED_MIN").
Definition SPEED_MAX : Z := Eval vm_compute in default 0 (JOG_COMMANDS !! "SPEED_MAX").

(** The command code that keeps a direction going. *)
Definition command_of (d : direction) : Z :=
  match d with
  | forward => FORWARD
  | reverse => REVERSE
  end.

(** The test of [initialize_speed] that tells a speed from a command. *)
Definition is_speed (value : Z) : bool := value <=? SPEED_MAX.

(** ** Specification-side notions *)

(** The clamp as the specification words it. *)
Definition clamp (s : Z) : Z :=
  if s <? SPEED_MIN then SPEED_MIN
  else if s >? SPEED_MAX then SPEED_MAX
  else s.

Definition in_speed_range (v : Z) : Prop := SPEED_MIN <= v <= SPEED_MAX.

Definition reserved_code (v : Z) : Prop := v = FORWARD \/ v = REVERSE \/ v = STOP.

(** The fault codes that the catalogue enumerates. *)
Definition catalogued : list Z := [1; 2; 3; 4; 5; 6; 7; 8; 9; 10; 13; 14; 15; 20; 23].

Section Observations.

Context {T : Type} `{Transport T}.

(** The exchanges an operation issued when run from [w]. *)
Definition issued {A} (op : M T A) (w : World T) : list exchange :=
  drop (length (wire w)) (wire (snd (op w))).

Definition failed_write (x : exchange) : Prop :=
  match x with
  | Write _ _ (Raise _) => True
  | _ => False
  end.

(** What the failure semantics asks of an operation run from [w]: when one
    of its register writes fails, it answers [False] and leaves both state
    attributes as they were. *)
Definition failure_leaves_state (op : M T bool) (w : World T) : Prop :=
  Exists failed_write (issued op w) ->
  fst (op w) = Return false /\
  current_speed (snd (op w)) = current_speed w /\
  current_direction (snd (op w)) = current_direction w.

(** The same, asked only of the first write an operation issues. *)
Definition first_write_failure_leaves_state (op : M T bool) (w : World T) : Prop :=
  (exists x, head (issued op w) = Some x /\ failed_write x) ->
  fst (op w) = Return false /\
  current_speed (snd (op w)) = current_speed w /\
  current_direction (snd (op w)) = current_direction w.

Definition speed_ok (w : World T) : Prop := in_speed_range (current_speed w).

(** The calls a client can make on a controller. *)
Inductive call : Type :=
| Connect (t : T)
| CheckConnection
| InitializeSpeed
| SetJogSpeed (speed : Z)
| IncreaseSpeed (increment : Z)
| DecreaseSpeed (decrement : Z)
| Jog (command : Z)
| StopJog
| ResetSpeedToInitial
| Close.

Definition perform (c : call) (w : World T) : World T :=
  match c with
  | Connect t => connected t w
  | CheckConnection => snd (check_connection w)
  | InitializeSpeed => snd (initialize_speed w)
  | SetJogSpeed speed => snd (set_jog_speed speed w)
  | IncreaseSpeed increment => snd (increase_speed increment w)
  | DecreaseSpeed decrement => snd (decrease_speed decrement w)
  | Jog command => snd (jog command w)
  | StopJog => snd (stop_jog w)
  | ResetSpeedToInitial => snd (reset_speed_to_initial w)
  | Close => snd (close w)
  end.

Definition run (calls : list call) (w : World T) : World T :=
  fold_left (fun w c => perform c w) calls w.

End Observations.

(** ** A scripted line, for concrete runs

    The instrument state is the list of the answers still to come: [Some v]
    answers an exchange (a read decodes [v] when it fits a register, a write
    is acknowledged), [None] and the end of the script are timeouts. *)

Definition no_answer : exn :=
  Exception "No communication with the instrument (no answer)".

Definition scripted_read (t : list (option Z)) (addr : Z)
  : outcome Z * list (option Z) :=
  match t with
  | Some v :: t' =>
      if (0 <=? v) && (v <=? 65535) then (Return v, t')
      else (Raise (Exception "Wrong number of bytes in the response"), t')
  | None :: t' => (Raise no_answer, t')
  | [] => (Raise no_answer, [])
  end.

Definition scripted_write (t : list (option Z)) (addr value : Z)
  : outcome unit * list (option Z) :=
  match t with
  | Some _ :: t' => (Return tt, t')
  | None :: t' => (Raise no_answer, t')
  | [] => (Raise no_answer, [])
  end.

#[export] Instance scripted : Transport (list (option Z)).
Proof.
  refine {| read_register := scripted_read; write_register := scripted_write |}.
  intros t addr v t'. destruct t as [|[x|] t0]; simpl; try discriminate.
  destruct (Z.leb_spec 0 x); destruct (Z.leb_spec x 65535); simpl;
    try discriminate.
  intros [= <- _]. split; assumption.
Defined.

(** A controller on the scripted instrument [t], with a clean console. *)
Definition world (t : list (option Z)) (speed : Z) (d : option direction)
  : World (list (option Z)) :=
  mkWorld (Some t) speed d [] [].

(** ** The host: configuration file, serial port and operator

    [_load_config], [connect] and [main] talk to the file system, to
    PyYAML, to pyserial and to the keyboard.  What those give is taken from
    the environment: a parsed configuration, the outcome of opening the
    instrument, the effect of setting an attribute of its serial port, and
    the operator's input. *)

(** [V] is the type of the values of the configuration file. *)
Class Host (T V : Type) : Type := {
  (** [instrument.serial.<name> = value] *)
  serial_setattr : T -> string -> V -> outcome unit * T;
  (** [str(value)], as an f-string formats it *)
  str_value : V -> string
}.

(** The object that [self.config] holds: a mapping, or any other value of
    a YAML file, whose subscript by a string raises (a [TypeError]). *)
Inductive settings (V : Type) : Type :=
| Mapping (m : gmap string V)
| NotSubscriptable (e : exn).

Arguments Mapping {V} m.
Arguments NotSubscriptable {V} e.

(** What [yaml.safe_load] returns: a mapping at top level, or any other
    value ([None] for an empty file), on which [.get] raises (an
    [AttributeError]). *)
Inductive document (V : Type) : Type :=
| TopMapping (sections : gmap string (settings V))
| NoGet (e : exn).

Arguments TopMapping {V} sections.
Arguments NoGet {V} e.

(** The outcome of [open(config_file)] followed by [yaml.safe_load]. *)
Inductive loaded (V : Type) : Type :=
| FileNotFoundError (e : exn)
| LoadError (e : exn)
| Parsed (doc : document V).

Arguments FileNotFoundError {V} e.
Arguments LoadError {V} e.
Arguments Parsed {V} doc.

(** One turn of the operator at the prompt: a line, given as
    [input(...).strip().lower()] makes it, or Ctrl-C.  A list of turns
    that runs out is the end of the input ([EOFError]).  (Ctrl-C is taken
    at the prompt only, where the program waits; an interrupt in the
    middle of a call is outside this model.) *)
Inductive keyboard : Type :=
| Line (command : string)
| CtrlC.

(** How the [while True] loop of [main] is left. *)
Inductive loop_exit : Type :=
| Quit
| KeyboardInterrupt
| EOFError.

(** ["=" * 50] *)
Definition rule : string := Eval vm_compute in
  String.concat "" (replicate 50 "=").

(** ["\n"] *)
Definition newline : string :=
  Eval vm_compute in String (Ascii.ascii_of_nat 10) EmptyString.

Section HostOperations.

Context {T V : Type} `{Transport T} `{Host T V}.

(** [self.config[key]] *)
Definition config_subscript (config : settings V) (key : string) : M T V :=
  match config with
  | Mapping m =>
      match m !! key with
      | Some v => ret v
      | None => raise (Exception ("'" +:+ key +:+ "'"))
      end
  | NotSubscriptable e => raise e
  end.

(** [_load_config]: both handlers print and re-raise. *)
Definition _load_config (config_file : string) (file : loaded V)
  : M T (settings V) :=
  match file with
  | FileNotFoundError e =>
      print ("❌ Ошибка: Файл конфигурации " +:+ config_file +:+ " не найден");;
      raise e
  | LoadError e =>
      print ("❌ Ошибка при загрузке конфигурации: " +:+ str_exn e);;
      raise e
  | Parsed (NoGet e) =>
      print ("❌ Ошибка при загрузке конфигурации: " +:+ str_exn e);;
      raise e
  | Parsed (TopMapping sections) =>
      ret (default (Mapping ∅) (sections !! "modbus"))
  end.

(** [self.instrument = minimalmodbus.Instrument(port, slave_address)], the
    constructor giving [opened]. *)
Definition new_instrument (opened : outcome T) : M T unit :=
  fun w =>
    match opened with
    | Return t =>
        (Return tt,
         mkWorld (Some t) (current_speed w) (current_direction w)
                 (stdout w) (wire w))
    | Raise e => (Raise e, w)
    end.

(** [self.instrument.serial.<name> = value] *)
Definition instrument_serial_setattr (name : string) (value : V) : M T unit :=
  fun w =>
    match instrument w with
    | None =>
        (Raise (Exception "'NoneType' object has no attribute 'serial'"), w)
    | Some t =>
        let (r, t') := serial_setattr t name value in
        (r, mkWorld (Some t') (current_speed w) (current_direction w)
                    (stdout w) (wire w))
    end.

Definition connect (config : settings V) (opened : outcome T) : M T bool :=
  try_except
    (port <- config_subscript config "port";;
     slave_address <- config_subscript config "slave_address";;
     new_instrument opened;;
     baudrate <- config_subscript config "baudrate";;
     instrument_serial_setattr "baudrate" baudrate;;
     bytesize <- config_subscript config "bytesize";;
     instrument_serial_setattr "bytesize" bytesize;;
     parity <- config_subscript config "parity";;
     instrument_serial_setattr "parity" parity;;
     stopbits <- config_subscript config "stopbits";;
     instrument_serial_setattr "stopbits" stopbits;;
     timeout <- config_subscript config "timeout";;
     instrument_serial_setattr "timeout" timeout;;
     port <- config_subscript config "port";;
     baudrate <- config_subscript config "baudrate";;
     print ("✅ Успешное подключение к " +:+ str_value port
            +:+ " на скорости " +:+ str_value baudrate +:+ " baud");;
     ret true)
    (fun e =>
       print ("❌ Не удалось подключиться: " +:+ str_exn e);;
       print "Проверьте:";;
       print "- Правильность COM-порта";;
       print "- Скорость передачи (должна быть 9600 для P3-01=1)";;
       print "- Параметр P3-02 должен быть установлен в 7 (Modbus RTU, 8,E,1)";;
       print "- Физическое подключение RS-485";;
       ret false).

(** The three lines at the head of [main]. *)
Definition banner : M T unit :=
  print rule;;
  print "Delta ASDA-AB Servo Controller - JOG Mode";;
  print rule.

(** The lines that [main] prints before it enters the loop. *)
Definition instructions : M T unit :=
  print (newline +:+ rule);;
  print "✅ Готов к управлению!";;
  now <- get_current_speed;;
  print ("Текущая скорость: " +:+ pretty now +:+ " об/мин");;
  print "Управление:";;
  print "  w - Вращение вперед (CW)";;
  print "  s - Вращение назад (CCW)";;
  print "  пробел - Остановить вращение";;
  print ("  + - Увеличить скорость на " +:+ pretty JOG_STEP +:+ " об/мин");;
  print ("  - - Уменьшить скорость на " +:+ pretty JOG_STEP +:+ " об/мин");;
  print "  q - Выход из программы";;
  print rule.

(** The body of [while True] in [main], over the turns of the operator.
    [input] writes its prompt to the console before it reads;
    [time.sleep(0.1)] has no effect on the world. *)
Fixpoint command_loop (keys : list keyboard) : M T loop_exit :=
  match keys with
  | [] =>
      print "Введите команду: ";;
      ret EOFError
  | CtrlC :: _ =>
      print "Введите команду: ";;
      ret KeyboardInterrupt
  | Line command :: keys =>
      print "Введите команду: ";;
      if String.eqb command "w" then
        c_forward <- subscript JOG_COMMANDS "FORWARD";;
        jog c_forward;;
        now <- get_current_speed;;
        print ("➡️  Вращение ВПЕРЕД (" +:+ pretty now +:+ " об/мин)");;
        command_loop keys
      else if String.eqb command "s" then
        c_reverse <- subscript JOG_COMMANDS "REVERSE";;
        jog c_reverse;;
        now <- get_current_speed;;
        print ("⬅️  Вращение НАЗАД (" +:+ pretty now +:+ " об/мин)");;
        command_loop keys
      else if String.eqb command " " || String.eqb command "" then
        stop_jog;;
        print "⏹️  Остановлено";;
        command_loop keys
      else if String.eqb command "+" then
        increase_speed JOG_STEP;;
        now <- get_current_speed;;
        print ("📈 Скорость увеличена: " +:+ pretty now +:+ " об/мин");;
        command_loop keys
      else if String.eqb command "-" then
        decrease_speed JOG_STEP;;
        now <- get_current_speed;;
        print ("📉 Скорость уменьшена: " +:+ pretty now +:+ " об/мин");;
        command_loop keys
      else if String.eqb command "q" then
        print (newline +:+ "👋 Выход из программы...");;
        ret Quit
      else
        print "❌ Неизвестная команда. Используйте w, s, пробел, +, - или q.";;
        command_loop keys
  end.

(** [main], run on a fresh console.  [controller = ServoController()] is
    [__init__] with the configuration that [_load_config] returns; an
    [EOFError] of [input] passes the [except KeyboardInterrupt] clause and
    leaves [main] after the [finally] clause. *)
Definition main (file : loaded V) (opened : outcome T) (keys : list keyboard)
  : outcome unit * World T :=
  (banner;;
   config <- _load_config "modbus_config.yaml" file;;
   connected <- connect config opened;;
   if negb connected then ret tt
   else
     alive <- check_connection;;
     if negb alive then
       close;;
       ret tt
     else
       initialize_speed;;
       instructions;;
       exit <- command_loop keys;;
       match exit with
       | KeyboardInterrupt =>
           print (newline +:+ "⚠️  Программа прервана пользователем")
       | _ => ret tt
       end;;
       close;;
       match exit with
       | EOFError => raise (Exception "EOF when reading a line")
       | _ => ret tt
       end) __init__.

(** [main] up to the answer of [connect], named for the statements about
    it. *)
Definition boot (file : loaded V) (opened : outcome T) : M T bool :=
  banner;;
  config <- _load_config "modbus_config.yaml" file;;
  connect config opened.

(** The calls that the loop of [main] makes on the controller. *)
Definition operator_calls : list (@call T) :=
  [Jog FORWARD; Jog REVERSE; StopJog; IncreaseSpeed JOG_STEP;
   DecreaseSpeed JOG_STEP].

End HostOperations.

(** ** Kinds of exchanges *)

Definition is_read (x : exchange) : Prop :=
  match x with
  | Read _ _ => True
  | Write _ _ _ => False
  end.

(** The exchanges that the controller has a use for: a read of one of the
    three registers, or a write to the JOG register of a speed of the
    range, of a command code, or of a value that a caller handed to [jog]
    (one of [raw]). *)
Definition sanctioned (raw : list Z) (x : exchange) : Prop :=
  match x with
  | Read addr _ => addr = VERSION \/ addr = ERROR \/ addr = JOG
  | Write addr value _ =>
      addr = JOG /\ (in_speed_range value \/ reserved_code value \/ In value raw)
  end.

(** The values that a list of calls hands to [jog]. *)
Definition jog_arguments {T} (calls : list (@call T)) : list Z :=
  flat_map (fun c => match c with Jog command => [command] | _ => [] end) calls.

(** The seven keys that [connect] looks up in [self.config]. *)
Definition connection_keys : list string :=
  ["port"; "slave_address"; "baudrate"; "bytesize"; "parity"; "stopbits";
   "timeout"].

Definition has_setting {V} (config : settings V) (key : string) : Prop :=
  exists m v, config = Mapping m /\ m !! key = Some v.

(** How the turns of the operator end the loop of [main]: at the first
    [q] or Ctrl-C, or else at the end of the input. *)
Fixpoint loop_end (keys : list keyboard) : loop_exit :=
  match keys with
  | [] => EOFError
  | CtrlC :: _ => KeyboardInterrupt
  | Line command :: keys =>
      if String.eqb command "q" then Quit else loop_end keys
  end.

(** ** A scripted host

    Configuration values are strings, and the serial port takes every
    value of an attribute. *)
#[export] Instance scripted_host : Host (list (option Z)) string := {
  serial_setattr t name value := (Return tt, t);
  str_value value := value
}.

(** A complete [modbus] section. *)
Definition modbus_section : gmap string string :=
  list_to_map
    [("port", "COM3"); ("slave_address", "1"); ("baudrate", "9600");
     ("bytesize", "8"); ("parity", "E"); ("stopbits", "1"); ("timeout", "1")].


(** ** Symbolic execution of the embedding *)

(** Replace each subscript of a dictionary literal by the entry it finds. *)
Ltac resolve_subscripts :=
  repeat match goal with
  | |- context [@subscript ?T ?d ?k] =>
      let v := eval vm_compute in (d !! k) in
      match v with
      | Some ?x => change (@subscript T d k) with (@ret T Z x)
      end
  end.

Ltac py_unfold :=
  unfold try_except, bind, ret, raise, print, get_current_speed,
    get_current_direction, set_current_speed, set_current_direction,
    instrument_read_register, instrument_write_register.

(** One branching point of [connect]: a key of the configuration, or an
    attribute of the serial port. *)
Ltac connect_step :=
  match goal with
  | |- context [match ?m !! ?k with _ => _ end] =>
      destruct (m !! k) eqn:?; simpl
  | |- context [serial_setattr ?t ?n ?v] =>
      destruct (serial_setattr t n v) as [[[]|?] ?] eqn:?; simpl
  end.

Ltac connect_unfold :=
  unfold connect; py_unfold;
  unfold config_subscript, new_instrument, instrument_serial_setattr;
  py_unfold.

(** The direction that a confirmed [jog(command)] leaves. *)
Definition direction_after (command : Z) (d : option direction)
  : option direction :=
  if command =? FORWARD then Some forward
  else if command =? REVERSE then Some reverse
  else if command =? STOP then None
  else d.

Definition say {T} (line : string) (w : World T) : World T :=
  mkWorld (instrument w) (current_speed w) (current_direction w)
          (stdout w ++ [line]) (wire w).

Definition says {T} (lines : list string) (w : World T) : World T :=
  mkWorld (instrument w) (current_speed w) (current_direction w)
          (stdout w ++ lines) (wire w).

(** ** Facts about the operations *)

Section Facts.

Context {T : Type} `{Transport T}.

Lemma clamp_cases s :
  (s < 0 -> clamp s = 0) /\
  (3000 < s -> clamp s = 3000) /\
  (0 <= s <= 3000 -> clamp s = s).
Proof.
  unfold clamp, SPEED_MIN, SPEED_MAX.
  destruct (Z.ltb_spec s 0); destruct (Z.gtb_spec s 3000); lia.
Qed.

Lemma clamp_in_range s : 0 <= clamp s <= 3000.
Proof. destruct (clamp_cases s) as (H1 & H2 & H3). lia. Qed.

Lemma clamp_speed_run s (w : World T) : clamp_speed s w = (Return (clamp s), w).
Proof.
  unfold clamp_speed. resolve_subscripts. py_unfold.
  unfold clamp, SPEED_MIN, SPEED_MAX.
  destruct (s <? 0); [reflexivity|]. destruct (s >? 3000); reflexivity.
Qed.

Lemma jog_run command (w : World T) :
  jog command w =
  match instrument w with
  | None =>
      (Return false,
       say ("❌ Ошибка при отправке JOG команды: "
            +:+ "'NoneType' object has no attribute 'write_register'") w)
  | Some t =>
      match write_register t JOG command with
      | (Return u, t') =>
          (Return true,
           mkWorld (Some t') (current_speed w)
             (direction_after command (current_direction w))
             (stdout w) (wire w ++ [Write JOG command (Return u)]))
      | (Raise e, t') =>
          (Return false,
           mkWorld (Some t') (current_speed w) (current_direction w)
             (stdout w ++ ["❌ Ошибка при отправке JOG команды: " +:+ str_exn e])
             (wire w ++ [Write JOG command (Raise e)]))
      end
  end.
Proof.
  unfold jog. resolve_subscripts. py_unfold.
  unfold direction_after, say, JOG, FORWARD, REVERSE, STOP.
  destruct w as [i sp d out wr]; simpl.
  destruct i as [t|]; [|reflexivity].
  destruct (write_register t 1029 command) as [[u|e] t']; [|reflexivity].
  simpl.
  destruct (command =? 4999); [reflexivity|].
  destruct (command =? 4998); [reflexivity|].
  destruct (command =? 5000); reflexivity.
Qed.

(** [jog] never lets an exception out. *)
Lemma jog_returns command (w : World T) :
  exists b, fst (jog command w) = Return b.
Proof.
  rewrite jog_run. destruct (instrument w) as [t|]; [|eauto].
  destruct (write_register t JOG command) as [[u|e] t']; eauto.
Qed.

Lemma set_jog_speed_run speed (w : World T) :
  set_jog_speed speed w =
  match instrument w with
  | None =>
      (Return false,
       say ("❌ Ошибка при установке скорости JOG: "
            +:+ "'NoneType' object has no attribute 'write_register'") w)
  | Some t =>
      match write_register t JOG (clamp speed) with
      | (Return u, t') =>
          let w1 :=
            mkWorld (Some t') (clamp speed) (current_direction w) (stdout w)
                    (wire w ++ [Write JOG (clamp speed) (Return u)]) in
          let w2 :=
            match current_direction w with
            | Some d => snd (jog (command_of d) w1)
            | None => w1
            end in
          (Return true,
           say ("🎯 Скорость установлена: " +:+ pretty (clamp speed) +:+ " об/мин") w2)
      | (Raise e, t') =>
          (Return false,
           mkWorld (Some t') (current_speed w) (current_direction w)
             (stdout w ++ ["❌ Ошибка при установке скорости JOG: " +:+ str_exn e])
             (wire w ++ [Write JOG (clamp speed) (Raise e)]))
      end
  end.
Proof.
  unfold set_jog_speed. resolve_subscripts.
  unfold try_except at 1. unfold bind at 1. rewrite clamp_speed_run.
  py_unfold. unfold say, JOG.
  destruct w as [i sp d out wr]; simpl.
  destruct i as [t|]; [|reflexivity].
  destruct (write_register t 1029 (clamp speed)) as [[u|e] t']; [|reflexivity].
  simpl. destruct d as [[|]|]; simpl; unfold FORWARD, REVERSE;
    [| |reflexivity].
  - destruct (jog_returns 4999
      (mkWorld (Some t') (clamp speed) (Some forward) out
               (wr ++ [Write 1029 (clamp speed) (Return u)]))) as [b Hb].
    destruct (jog 4999 _) as [r w2]. simpl in Hb. subst r. reflexivity.
  - destruct (jog_returns 4998
      (mkWorld (Some t') (clamp speed) (Some reverse) out
               (wr ++ [Write 1029 (clamp speed) (Return u)]))) as [b Hb].
    destruct (jog 4998 _) as [r w2]. simpl in Hb. subst r. reflexivity.
Qed.

Lemma issued_app {A} (op : M T A) (w : World T) l :
  wire (snd (op w)) = wire w ++ l -> issued op w = l.
Proof. unfold issued. intros ->. apply drop_app_length. Qed.

Lemma jog_current_speed command (w : World T) :
  current_speed (snd (jog command w)) = current_speed w.
Proof.
  rewrite jog_run. destruct (instrument w) as [t|]; [|reflexivity].
  destruct (write_register t JOG command) as [[u|e] t']; reflexivity.
Qed.

(** The exchanges of one [jog]: a single write of the command, if there is
    an instrument at all. *)
Lemma jog_wire command (w : World T) :
  wire (snd (jog command w)) =
  wire w ++
  match instrument w with
  | None => []
  | Some t => [Write JOG command (fst (write_register t JOG command))]
  end.
Proof.
  rewrite jog_run. destruct (instrument w) as [t|]; simpl.
  - destruct (write_register t JOG command) as [[u|e] t']; reflexivity.
  - symmetry. apply app_nil_r.
Qed.

(** Re-issuing the command of the direction held keeps that direction,
    whatever the line answers. *)
Lemma jog_command_of_direction d (w : World T) :
  current_direction w = Some d ->
  current_direction (snd (jog (command_of d) w)) = Some d.
Proof.
  intros Hd. rewrite jog_run. destruct (instrument w) as [t|]; [|exact Hd].
  destruct (write_register t JOG (command_of d)) as [[u|e] t']; simpl;
    [|exact Hd].
  destruct d; reflexivity.
Qed.

Lemma direction_after_other command d :
  ~ reserved_code command -> direction_after command d = d.
Proof.
  unfold reserved_code, direction_after. intros Hn.
  destruct (Z.eqb_spec command FORWARD); [tauto|].
  destruct (Z.eqb_spec command REVERSE); [tauto|].
  destruct (Z.eqb_spec command STOP); [tauto|]. reflexivity.
Qed.

Lemma set_jog_speed_direction speed (w : World T) :
  current_direction (snd (set_jog_speed speed w)) = current_direction w.
Proof.
  rewrite set_jog_speed_run. destruct (instrument w) as [t|]; [|reflexivity].
  destruct (write_register t JOG (clamp speed)) as [[u|e] t']; [|reflexivity].
  simpl. destruct (current_direction w) as [d|] eqn:Hd; [|reflexivity].
  apply jog_command_of_direction. reflexivity.
Qed.

Lemma set_jog_speed_returns speed (w : World T) :
  exists b, fst (set_jog_speed speed w) = Return b.
Proof.
  rewrite set_jog_speed_run. destruct (instrument w) as [t|]; [|eauto].
  destruct (write_register t JOG (clamp speed)) as [[u|e] t']; eauto.
Qed.

Lemma set_jog_speed_in_range speed (w : World T) :
  speed_ok w -> speed_ok (snd (set_jog_speed speed w)).
Proof.
  unfold speed_ok, in_speed_range, SPEED_MIN, SPEED_MAX. intros Hw.
  rewrite set_jog_speed_run. destruct (instrument w) as [t|]; [|exact Hw].
  destruct (write_register t JOG (clamp speed)) as [[u|e] t']; [|exact Hw].
  simpl. destruct (current_direction w) as [d|].
  - rewrite jog_current_speed. apply clamp_in_range.
  - apply clamp_in_range.
Qed.

Lemma stop_jog_run (w : World T) :
  stop_jog w =
  jog STOP (mkWorld (instrument w) (current_speed w) None (stdout w) (wire w)).
Proof. unfold stop_jog. resolve_subscripts. reflexivity. Qed.

(** *** The register protocol *)

(** C4: the dictionary [JOG_COMMANDS] holds FORWARD = 4999, REVERSE = 4998,
    STOP = 5000 and the speed range 0..3000; each command code lies
    strictly above SPEED_MAX, so the magnitude test of [initialize_speed]
    accepts every speed of the range and rejects every command code. *)
Theorem command_codes_above_speed_range :
  JOG_COMMANDS !! "FORWARD" = Some 4999 /\
  JOG_COMMANDS !! "REVERSE" = Some 4998 /\
  JOG_COMMANDS !! "STOP" = Some 5000 /\
  JOG_COMMANDS !! "SPEED_MIN" = Some 0 /\
  JOG_COMMANDS !! "SPEED_MAX" = Some 3000 /\
  SPEED_MAX < FORWARD /\ SPEED_MAX < REVERSE /\ SPEED_MAX < STOP /\
  forall v,
    (in_speed_range v -> is_speed v = true /\ ~ reserved_code v) /\
    (reserved_code v -> is_speed v = false /\ ~ in_speed_range v).
Proof.
  repeat (split; [reflexivity|]).
  intros v. unfold in_speed_range, reserved_code, is_speed,
    SPEED_MIN, SPEED_MAX, FORWARD, REVERSE, STOP.
  destruct (Z.leb_spec v 3000); split; intros Hv; split; try lia;
    try reflexivity.
Qed.

(** C2: [set_jog_speed(s)] never raises; the value it writes to the JOG
    register, and stores in [current_speed] once the write is confirmed, is
    [clamp s]: 0 below the range, 3000 above it, [s] inside.  That value
    lies in 0..3000 and is none of the command codes. *)
Theorem set_jog_speed_writes_clamped speed (w : World T) :
  clamp speed = (if speed <? 0 then 0 else if speed >? 3000 then 3000 else speed) /\
  0 <= clamp speed <= 3000 /\
  ~ reserved_code (clamp speed) /\
  (exists b, fst (set_jog_speed speed w) = Return b) /\
  (match instrument w with
   | None =>
       issued (set_jog_speed speed) w = [] /\
       fst (set_jog_speed speed w) = Return false /\
       current_speed (snd (set_jog_speed speed w)) = current_speed w
   | Some t =>
       let r := fst (write_register t JOG (clamp speed)) in
       head (issued (set_jog_speed speed) w) = Some (Write JOG (clamp speed) r) /\
       (if succeeded r then
          fst (set_jog_speed speed w) = Return true /\
          current_speed (snd (set_jog_speed speed w)) = clamp speed
        else
          fst (set_jog_speed speed w) = Return false /\
          current_speed (snd (set_jog_speed speed w)) = current_speed w)
   end).
Proof.
  split; [reflexivity|]. split; [apply clamp_in_range|].
  split.
  { pose proof (clamp_in_range speed).
    unfold reserved_code, FORWARD, REVERSE, STOP. lia. }
  split; [apply set_jog_speed_returns|].
  unfold issued. rewrite set_jog_speed_run.
  destruct (instrument w) as [t|]; simpl.
  - destruct (write_register t JOG (clamp speed)) as [[[]|e] t']; simpl.
    + destruct (current_direction w) as [d|]; simpl.
      * rewrite jog_wire, jog_current_speed. simpl.
        rewrite <- app_assoc, drop_app_length. auto.
      * rewrite drop_app_length. auto.
    + rewrite drop_app_length. auto.
  - rewrite drop_all. auto.
Qed.

(** C10: for a value that is none of FORWARD, REVERSE, STOP, [jog(v)] on a
    connected controller issues exactly one write, of [v] itself, to the
    JOG register; the direction and the speed stay as they were whether
    the write succeeds or not, and the call answers [True] exactly when
    the write succeeded. *)
Theorem jog_passes_other_values v t (w : World T) :
  instrument w = Some t ->
  v <> FORWARD -> v <> REVERSE -> v <> STOP ->
  let r := fst (write_register t JOG v) in
  issued (jog v) w = [Write JOG v r] /\
  current_direction (snd (jog v w)) = current_direction w /\
  current_speed (snd (jog v w)) = current_speed w /\
  fst (jog v w) = Return (succeeded r).
Proof.
  intros Hi Hf Hr Hs r. subst r.
  split.
  { apply issued_app. rewrite jog_wire, Hi. reflexivity. }
  split; [|split; [apply jog_current_speed|]].
  - rewrite jog_run, Hi.
    destruct (write_register t JOG v) as [[u|e] t']; simpl; [|reflexivity].
    apply direction_after_other. unfold reserved_code. tauto.
  - rewrite jog_run, Hi.
    destruct (write_register t JOG v) as [[u|e] t']; reflexivity.
Qed.

(** C5: [set_jog_speed] called on a connected controller while the
    direction is Forward or Reverse writes the clamped speed to the JOG
    register and, that write confirmed, re-issues the command code of the
    direction held: exactly two writes, in that order, with the new speed
    stored.  (A speed write that fails ends the call after that one
    write.)  The direction after the call is the one held before it. *)
Theorem set_jog_speed_reasserts_direction speed d t (w : World T) :
  instrument w = Some t ->
  current_direction w = Some d ->
  let r1 := fst (write_register t JOG (clamp speed)) in
  let t1 := snd (write_register t JOG (clamp speed)) in
  let r2 := fst (write_register t1 JOG (command_of d)) in
  current_direction (snd (set_jog_speed speed w)) = Some d /\
  (succeeded r1 = true ->
   issued (set_jog_speed speed) w =
     [Write JOG (clamp speed) (Return tt); Write JOG (command_of d) r2] /\
   current_speed (snd (set_jog_speed speed w)) = clamp speed /\
   fst (set_jog_speed speed w) = Return true) /\
  (succeeded r1 = false ->
   issued (set_jog_speed speed) w = [Write JOG (clamp speed) r1]).
Proof.
  intros Hi Hd r1 t1 r2. subst r1 t1 r2. split.
  { rewrite set_jog_speed_direction. exact Hd. }
  unfold issued. rewrite set_jog_speed_run, Hi, Hd.
  destruct (write_register t JOG (clamp speed)) as [[[]|e] t']; simpl;
    split; intros Hok; try discriminate.
  - rewrite jog_wire, jog_current_speed. simpl.
    rewrite <- app_assoc, drop_app_length. auto.
  - rewrite drop_app_length. reflexivity.
Qed.

Lemma jog_issued command (w : World T) :
  issued (jog command) w =
  match instrument w with
  | None => []
  | Some t => [Write JOG command (fst (write_register t JOG command))]
  end.
Proof. apply issued_app, jog_wire. Qed.

(** A failed write of [jog] leaves the whole controller state alone. *)
Lemma jog_failure_leaves_state command (w : World T) :
  failure_leaves_state (jog command) w.
Proof.
  unfold failure_leaves_state. rewrite jog_issued, jog_run.
  destruct (instrument w) as [t|]; [|intros Hx; inversion Hx].
  destruct (write_register t JOG command) as [[u|e] t']; simpl.
  - intros Hx. inversion Hx as [? ? Hf|? ? Hf]; inversion Hf.
  - auto.
Qed.

Lemma set_jog_speed_first_write_failure speed (w : World T) :
  first_write_failure_leaves_state (set_jog_speed speed) w.
Proof.
  unfold first_write_failure_leaves_state, issued.
  rewrite set_jog_speed_run.
  destruct (instrument w) as [t|]; simpl.
  - destruct (write_register t JOG (clamp speed)) as [[u|e] t']; simpl.
    + intros (x & Hx & Hf). exfalso.
      destruct (current_direction w) as [d|]; simpl in Hx.
      * rewrite jog_wire in Hx. simpl in Hx.
        rewrite <- app_assoc, drop_app_length in Hx. simpl in Hx.
        injection Hx as <-. exact Hf.
      * rewrite drop_app_length in Hx. simpl in Hx.
        injection Hx as <-. exact Hf.
    + auto.
  - rewrite drop_all. intros (x & Hx & _). discriminate.
Qed.

(** *** Failure semantics *)

(** C1, as the code has it: a failed write of [jog], and a failed speed
    write of [set_jog_speed], make the operation answer [False] and leave
    [current_speed] and [current_direction] as they were; [set_jog_speed]
    never changes [current_direction], whichever of its writes fails;
    [stop_jog] with a failed write answers [False] and leaves
    [current_speed] as it was. *)
Theorem write_failure_semantics (w : World T) :
  (forall command, failure_leaves_state (jog command) w) /\
  (forall speed,
     first_write_failure_leaves_state (set_jog_speed speed) w /\
     current_direction (snd (set_jog_speed speed w)) = current_direction w) /\
  (Exists failed_write (issued stop_jog w) ->
   fst (stop_jog w) = Return false /\
   current_speed (snd (stop_jog w)) = current_speed w).
Proof.
  split; [intros command; apply jog_failure_leaves_state|].
  split.
  { intros speed. split.
    - apply set_jog_speed_first_write_failure.
    - apply set_jog_speed_direction. }
  unfold issued. rewrite stop_jog_run.
  set (w0 := mkWorld (instrument w) (current_speed w) None (stdout w) (wire w)).
  intros Hx. destruct (jog_failure_leaves_state STOP w0 Hx) as (Hr & Hs & _).
  exact (conj Hr Hs).
Qed.

Lemma bind_run {A B} (m : M T A) (k : A -> M T B) (w : World T) a :
  fst (m w) = Return a -> bind m k w = k a (snd (m w)).
Proof. unfold bind. destruct (m w) as [r w']. simpl. intros ->. reflexivity. Qed.

Lemma stop_jog_returns (w : World T) : exists b, fst (stop_jog w) = Return b.
Proof. rewrite stop_jog_run. apply jog_returns. Qed.

Lemma reset_speed_to_initial_run (w : World T) :
  reset_speed_to_initial w =
  (Return true,
   say "🔄 Скорость сброшена до начального значения (20 об/мин)"
       (snd (set_jog_speed 20 w))).
Proof.
  unfold reset_speed_to_initial, try_except.
  destruct (set_jog_speed_returns 20 w) as [b Hb].
  rewrite (bind_run _ _ _ _ Hb). reflexivity.
Qed.

Lemma close_run t (w : World T) :
  instrument w = Some t ->
  close w =
  (Return tt,
   say "⏹️  Остановлено и соединение закрыто"
       (snd (reset_speed_to_initial (snd (stop_jog w))))).
Proof.
  intros Hi. unfold close. rewrite Hi.
  destruct (stop_jog_returns w) as [b Hb].
  rewrite (bind_run _ _ _ _ Hb).
  rewrite (bind_run _ _ _ true)
    by (rewrite reset_speed_to_initial_run; reflexivity).
  reflexivity.
Qed.

(** *** Stopping and closing *)

(** C8: after one [stop_jog] the direction is Stopped, and a second
    [stop_jog] ends in the same controller state: direction Stopped, speed
    untouched.  On a connected controller each of the two calls issues one
    write of STOP (5000) to the JOG register and nothing else; when the
    second write is confirmed the call answers [True], prints nothing and
    changes nothing but the line. *)
Theorem stop_jog_idempotent (w : World T) :
  let w1 := snd (stop_jog w) in
  let w2 := snd (stop_jog w1) in
  current_direction w1 = None /\
  current_direction w2 = current_direction w1 /\
  current_speed w2 = current_speed w1 /\
  current_speed w1 = current_speed w /\
  (match instrument w with
   | None => issued stop_jog w = []
   | Some t => issued stop_jog w = [Write JOG STOP (fst (write_register t JOG STOP))]
   end) /\
  (match instrument w1 with
   | None => issued stop_jog w1 = []
   | Some t1 =>
       let r := fst (write_register t1 JOG STOP) in
       issued stop_jog w1 = [Write JOG STOP r] /\
       (succeeded r = true ->
        stop_jog w1 =
        (Return true,
         mkWorld (Some (snd (write_register t1 JOG STOP)))
                 (current_speed w1) (current_direction w1) (stdout w1)
                 (wire w1 ++ [Write JOG STOP (Return tt)])))
   end).
Proof.
  assert (Hdir : forall v : World T, current_direction (snd (stop_jog v)) = None).
  { intros v. rewrite stop_jog_run, jog_run. simpl.
    destruct (instrument v) as [t|]; [|reflexivity].
    destruct (write_register t JOG STOP) as [[u|e] t']; reflexivity. }
  assert (Hsp : forall v : World T,
             current_speed (snd (stop_jog v)) = current_speed v).
  { intros v. rewrite stop_jog_run, jog_current_speed. reflexivity. }
  assert (Hiss : forall v : World T,
             issued stop_jog v =
             match instrument v with
             | None => []
             | Some t => [Write JOG STOP (fst (write_register t JOG STOP))]
             end).
  { intros v. apply issued_app. rewrite stop_jog_run, jog_wire. reflexivity. }
  intros w1 w2. subst w2.
  split; [apply Hdir|]. split; [subst w1; rewrite !Hdir; reflexivity|].
  split; [apply Hsp|]. split; [apply Hsp|].
  split.
  { rewrite Hiss. destruct (instrument w); reflexivity. }
  rewrite Hiss. pose proof (Hdir w) as Hd1. fold w1 in Hd1.
  destruct (instrument w1) as [t1|] eqn:Hi1; [|reflexivity].
  split; [reflexivity|].
  intros Hok. rewrite stop_jog_run, jog_run. simpl. rewrite Hi1, Hd1.
  destruct (write_register t1 JOG STOP) as [[[]|e] t']; simpl in *;
    [reflexivity|discriminate].
Qed.

(** C9: [close] on a connected controller never raises and issues exactly
    two writes to the JOG register, STOP (5000) first and the initial
    speed 20 second; it ends with the direction Stopped, and with
    [current_speed] 20 when the speed write is confirmed. *)
Theorem close_stops_then_resets t (w : World T) :
  instrument w = Some t ->
  let r1 := fst (write_register t JOG STOP) in
  let t1 := snd (write_register t JOG STOP) in
  let r2 := fst (write_register t1 JOG 20) in
  fst (close w) = Return tt /\
  issued close w = [Write JOG STOP r1; Write JOG 20 r2] /\
  current_direction (snd (close w)) = None /\
  (succeeded r2 = true -> current_speed (snd (close w)) = 20).
Proof.
  intros Hi r1 t1 r2. subst r1 t1 r2.
  unfold issued. rewrite (close_run t w Hi). simpl.
  rewrite reset_speed_to_initial_run, stop_jog_run, jog_run. simpl.
  rewrite Hi. change (direction_after STOP None) with (@None direction).
  destruct (write_register t JOG STOP) as [[[]|e1] t1]; simpl;
    rewrite set_jog_speed_run; simpl;
    change (clamp 20) with 20;
    destruct (write_register t1 JOG 20) as [[[]|e2] t2]; simpl;
    rewrite <- app_assoc, drop_app_length; simpl;
    repeat split; auto; discriminate.
Qed.

(** *** Start-up: link check and speed seeding *)

Lemma initialize_speed_run (w : World T) :
  initialize_speed w =
  match instrument w with
  | None =>
      (Return tt,
       say "ℹ️  Используется начальное значение скорости (20 об/мин)."
         (say ("⚠️  Не удалось прочитать текущую скорость: "
               +:+ "'NoneType' object has no attribute 'read_register'") w))
  | Some t =>
      match read_register t JOG with
      | (Return v, t') =>
          if v <=? SPEED_MAX then
            (Return tt,
             mkWorld (Some t') v (current_direction w)
               (stdout w ++ ["📊 Текущая скорость JOG считана из сервопривода: "
                             +:+ pretty v +:+ " об/мин"])
               (wire w ++ [Read JOG (Return v)]))
          else
            (Return tt,
             mkWorld (Some t') (current_speed w) (current_direction w)
               (stdout w ++ ["ℹ️  Текущее значение регистра P4-05 (" +:+ pretty v
                             +:+ ") не является скоростью. Используется начальное значение 20 об/мин."])
               (wire w ++ [Read JOG (Return v)]))
      | (Raise e, t') =>
          (Return tt,
           mkWorld (Some t') (current_speed w) (current_direction w)
             (stdout w ++ ["⚠️  Не удалось прочитать текущую скорость: " +:+ str_exn e;
                           "ℹ️  Используется начальное значение скорости (20 об/мин)."])
             (wire w ++ [Read JOG (Raise e)]))
      end
  end.
Proof.
  unfold initialize_speed. resolve_subscripts. py_unfold.
  unfold say, JOG, SPEED_MAX.
  destruct w as [i sp d out wr]; simpl.
  destruct i as [t|]; simpl.
  - destruct (read_register t 1029) as [[v|e] t']; simpl.
    + destruct (v <=? 3000); reflexivity.
    + rewrite <- app_assoc. reflexivity.
  - rewrite <- app_assoc. reflexivity.
Qed.

(** C3: on a connected controller [initialize_speed] never raises and
    issues exactly one exchange, a read of the JOG register.  A value of at
    most SPEED_MAX is adopted as [current_speed]; any larger value (such as
    the command code 4999) is discarded and [current_speed] stays what it
    was, which on the controller that [__init__] built is 20. *)
Theorem initialize_speed_adopts_only_speeds t (w : World T) :
  instrument w = Some t ->
  let r := fst (read_register t JOG) in
  let kept (seed : Z) :=
    match r with
    | Return v => if is_speed v then v else seed
    | Raise _ => seed
    end in
  fst (initialize_speed w) = Return tt /\
  issued initialize_speed w = [Read JOG r] /\
  current_speed (snd (initialize_speed w)) = kept (current_speed w) /\
  current_speed (snd (initialize_speed (connected t __init__))) = kept 20.
Proof.
  intros Hi r kept. subst r kept. unfold issued, is_speed.
  rewrite !initialize_speed_run, Hi. simpl.
  destruct (read_register t JOG) as [[v|e] t']; simpl.
  - destruct (v <=? SPEED_MAX); simpl; rewrite drop_app_length; auto.
  - rewrite drop_app_length; auto.
Qed.

(** The console lines of [check_connection] once both reads have answered. *)
Lemma check_connection_run (w : World T) :
  check_connection w =
  match instrument w with
  | None =>
      (Return false,
       say ("❌ Ошибка при проверке связи: "
            +:+ "'NoneType' object has no attribute 'read_register'") w)
  | Some t =>
      match read_register t VERSION with
      | (Raise e, t1) =>
          (Return false,
           mkWorld (Some t1) (current_speed w) (current_direction w)
             (stdout w ++ ["❌ Ошибка при проверке связи: " +:+ str_exn e])
             (wire w ++ [Read VERSION (Raise e)]))
      | (Return version, t1) =>
          match read_register t1 ERROR with
          | (Raise e, t2) =>
              (Return false,
               mkWorld (Some t2) (current_speed w) (current_direction w)
                 (stdout w ++ ["❌ Ошибка при проверке связи: " +:+ str_exn e])
                 (wire w ++ [Read VERSION (Return version); Read ERROR (Raise e)]))
          | (Return error_code, t2) =>
              if error_code =? 0 then
                (Return true,
                 mkWorld (Some t2) (current_speed w) (current_direction w)
                   (stdout w ++ ["🔍 Связь установлена!";
                                 "   Версия ПО: " +:+ pretty version;
                                 "✅ Отсутствуют ошибки (код 0)"])
                   (wire w ++ [Read VERSION (Return version);
                               Read ERROR (Return error_code)]))
              else
                (Return false,
                 mkWorld (Some t2) (current_speed w) (current_direction w)
                   (stdout w ++ ["🔍 Связь установлена!";
                                 "   Версия ПО: " +:+ pretty version;
                                 "⚠️  Обнаружена ошибка! Код: " +:+ pretty error_code;
                                 "   Описание: " +:+ describe error_code;
                                 "   Необходимо устранить ошибку перед управлением"])
                   (wire w ++ [Read VERSION (Return version);
                               Read ERROR (Return error_code)]))
          end
      end
  end.
Proof.
  unfold check_connection. resolve_subscripts. py_unfold.
  unfold say, VERSION, ERROR.
  destruct w as [i sp d out wr]; simpl.
  destruct i as [t|]; [|reflexivity]. simpl.
  destruct (read_register t 0) as [[version|e] t1]; [|reflexivity]. simpl.
  destruct (read_register t1 1) as [[error_code|e] t2]; simpl.
  - destruct (error_code =? 0); simpl; rewrite <- !app_assoc; reflexivity.
  - rewrite <- app_assoc. reflexivity.
Qed.

Lemma describe_uncatalogued code :
  code ∉ catalogued -> describe code = "Неизвестная ошибка".
Proof.
  unfold catalogued. intros Hn.
  repeat (apply not_elem_of_cons in Hn; destruct Hn as [? Hn]).
  unfold describe, error_descriptions. simpl.
  rewrite !lookup_insert_ne by congruence. reflexivity.
Qed.

(** C7: [check_connection] never raises, and answers [True] exactly when
    the controller is connected, the reads of VERSION and of ERROR both
    answer, and the ERROR value is 0.  For a non-zero ERROR value it
    answers [False] after the two reads and prints the description that
    the catalogue gives: the fixed text of codes 1-10, 13, 14, 15, 20, 23
    (for 7, the overspeed text) and the unknown-error text for every other
    code. *)
Theorem check_connection_ok_iff_no_fault (w : World T) :
  (exists b, fst (check_connection w) = Return b) /\
  (fst (check_connection w) = Return true <->
   exists t version t1 t2,
     instrument w = Some t /\
     read_register t VERSION = (Return version, t1) /\
     read_register t1 ERROR = (Return 0, t2)) /\
  (forall t version t1 error_code t2,
     instrument w = Some t ->
     read_register t VERSION = (Return version, t1) ->
     read_register t1 ERROR = (Return error_code, t2) ->
     error_code <> 0 ->
     fst (check_connection w) = Return false /\
     issued check_connection w =
       [Read VERSION (Return version); Read ERROR (Return error_code)] /\
     stdout (snd (check_connection w)) =
       stdout w ++ ["🔍 Связь установлена!";
                    "   Версия ПО: " +:+ pretty version;
                    "⚠️  Обнаружена ошибка! Код: " +:+ pretty error_code;
                    "   Описание: " +:+ describe error_code;
                    "   Необходимо устранить ошибку перед управлением"]) /\
  map describe catalogued =
    ["Перегрузка по току"; "Перенапряжение"; "Пониженное напряжение";
     "Смещение Z-импульса"; "Ошибка рекуперации"; "Перегрузка";
     "Превышение скорости"; "Некорректная команда импульсного управления";
     "Чрезмерное отклонение"; "Ошибка watchdog";
     "Активирован аварийный останов"; "Ошибка обратного предела";
     "Ошибка прямого предела"; "Ошибка последовательной связи";
     "Предупреждение о перегрузке"] /\
  describe 7 = "Превышение скорости" /\
  (forall code, code ∉ catalogued -> describe code = "Неизвестная ошибка").
Proof.
  split.
  { rewrite check_connection_run. destruct (instrument w) as [t|]; [|eauto].
    destruct (read_register t VERSION) as [[version|e] t1]; [|eauto].
    destruct (read_register t1 ERROR) as [[error_code|e] t2]; [|eauto].
    destruct (error_code =? 0); eauto. }
  split.
  { rewrite check_connection_run. split.
    - destruct (instrument w) as [t|]; [|discriminate].
      destruct (read_register t VERSION) as [[version|e] t1] eqn:Hv;
        [|discriminate].
      destruct (read_register t1 ERROR) as [[error_code|e] t2] eqn:He;
        [|discriminate].
      destruct (Z.eqb_spec error_code 0) as [->|]; [|discriminate].
      intros _. exists t, version, t1, t2. auto.
    - intros (t & version & t1 & t2 & -> & -> & ->). reflexivity. }
  split.
  { intros t version t1 error_code t2 Hi Hv He Hne. unfold issued.
    rewrite check_connection_run, Hi, Hv, He.
    destruct (Z.eqb_spec error_code 0) as [|_]; [contradiction|]. simpl.
    rewrite drop_app_length. auto. }
  split; [reflexivity|]. split; [reflexivity|].
  apply describe_uncatalogued.
Qed.

(** *** The speed invariant *)

Lemma initialize_speed_in_range (w : World T) :
  speed_ok w -> speed_ok (snd (initialize_speed w)).
Proof.
  unfold speed_ok, in_speed_range, SPEED_MIN. intros Hw.
  rewrite initialize_speed_run. destruct (instrument w) as [t|]; [|exact Hw].
  destruct (read_register t JOG) as [[v|e] t'] eqn:Hr; [|exact Hw].
  destruct (Z.leb_spec v SPEED_MAX); [|exact Hw]. simpl.
  pose proof (read_register_u16 _ _ _ _ Hr). lia.
Qed.

Lemma check_connection_current_speed (w : World T) :
  current_speed (snd (check_connection w)) = current_speed w.
Proof.
  rewrite check_connection_run. destruct (instrument w) as [t|]; [|reflexivity].
  destruct (read_register t VERSION) as [[version|e] t1]; [|reflexivity].
  destruct (read_register t1 ERROR) as [[error_code|e] t2]; [|reflexivity].
  destruct (error_code =? 0); reflexivity.
Qed.

Lemma perform_in_range (c : call) (w : World T) :
  speed_ok w -> speed_ok (perform c w).
Proof.
  intros Hw. destruct c; cbn [perform].
  - exact Hw.
  - unfold speed_ok. rewrite check_connection_current_speed. exact Hw.
  - apply initialize_speed_in_range, Hw.
  - apply set_jog_speed_in_range, Hw.
  - apply (set_jog_speed_in_range _ w Hw).
  - apply (set_jog_speed_in_range _ w Hw).
  - unfold speed_ok. rewrite jog_current_speed. exact Hw.
  - unfold speed_ok. rewrite stop_jog_run, jog_current_speed. exact Hw.
  - rewrite reset_speed_to_initial_run. apply (set_jog_speed_in_range 20 w Hw).
  - destruct (instrument w) as [t|] eqn:Hi.
    + rewrite (close_run t w Hi), reset_speed_to_initial_run.
      apply (set_jog_speed_in_range 20). unfold speed_ok.
      rewrite stop_jog_run, jog_current_speed. exact Hw.
    + unfold close. rewrite Hi. exact Hw.
Qed.

Lemma run_in_range (calls : list call) (w : World T) :
  speed_ok w -> speed_ok (run calls w).
Proof.
  revert w. induction calls as [|c calls IH]; intros w Hw; simpl.
  - exact Hw.
  - apply IH, perform_in_range, Hw.
Qed.

(** C6: [current_speed] starts at 20 and stays within 0..3000 through any
    sequence of calls on the controller ([connect], [check_connection],
    [initialize_speed], [set_jog_speed], [increase_speed],
    [decrease_speed], [jog], [stop_jog], [reset_speed_to_initial],
    [close]), whatever their arguments and whatever the line answers
    (a read that answers gives a 16-bit register value, as the transport
    interface states). *)
Theorem current_speed_always_in_range (calls : list call) :
  current_speed (@__init__ T) = 20 /\
  SPEED_MIN = 0 /\ SPEED_MAX = 3000 /\
  SPEED_MIN <= current_speed (run calls __init__) <= SPEED_MAX.
Proof.
  repeat (split; [reflexivity|]).
  apply (run_in_range calls __init__).
  unfold speed_ok, in_speed_range, SPEED_MIN, SPEED_MAX. simpl. lia.
Qed.

End Facts.

(** ** Concrete runs on the scripted line *)

(** Speed 20, [increase_speed(25)]: 45 is written and stored. *)
Example increase_speed_from_20 :
  let w' := snd (increase_speed JOG_STEP (world [Some 0] 20 None)) in
  current_speed w' = 45 /\ wire w' = [Write 1029 45 (Return tt)].
Proof. split; reflexivity. Qed.

(** Speed 20, [decrease_speed(25)]: the request -5 is clamped to 0. *)
Example decrease_speed_from_20 :
  let w' := snd (decrease_speed JOG_STEP (world [Some 0] 20 None)) in
  current_speed w' = 0 /\ wire w' = [Write 1029 0 (Return tt)].
Proof. split; reflexivity. Qed.

(** Requests of -5 and of 5000 store 0 and 3000. *)
Example set_jog_speed_out_of_range :
  current_speed (snd (set_jog_speed (-5) (world [Some 0] 20 None))) = 0 /\
  current_speed (snd (set_jog_speed 5000 (world [Some 0] 20 None))) = 3000.
Proof. split; reflexivity. Qed.

(** ERROR register 7: failure, with the overspeed text on the console. *)
Example check_connection_overspeed :
  let r := check_connection (world [Some 258; Some 7] 20 None) in
  fst r = Return false /\
  stdout (snd r) !! 3%nat = Some ("   Описание: " +:+ "Превышение скорости") /\
  wire (snd r) = [Read 0 (Return 258); Read 1 (Return 7)].
Proof. repeat split; reflexivity. Qed.

(** C1 fails on the code as stated.  With the direction Forward and a line
    that does not answer, [stop_jog] answers [False] and yet leaves the
    direction Stopped.  With the direction Forward and a line that confirms
    the speed write but not the re-issued FORWARD, [set_jog_speed(100)]
    answers [True] and has stored the new speed. *)
Lemma write_failure_changes_state :
  let w := world [None] 20 (Some forward) in
  let v := world [Some 0; None] 20 (Some forward) in
  (stop_jog w =
     (Return false,
      mkWorld (Some []) 20 None
        ["❌ Ошибка при отправке JOG команды: "
         +:+ "No communication with the instrument (no answer)"]
        [Write 1029 5000 (Raise no_answer)]) /\
   ~ failure_leaves_state stop_jog w) /\
  (fst (set_jog_speed 100 v) = Return true /\
   current_speed (snd (set_jog_speed 100 v)) = 100 /\
   wire (snd (set_jog_speed 100 v)) =
     [Write 1029 100 (Return tt); Write 1029 4999 (Raise no_answer)] /\
   ~ failure_leaves_state (set_jog_speed 100) v).
Proof.
  split; split; try reflexivity.
  - intros Hc. destruct Hc as (_ & _ & Hd).
    + apply Exists_cons_hd. exact I.
    + discriminate Hd.
  - split; [reflexivity|]. split; [reflexivity|].
    intros Hc. destruct Hc as (Hr & _).
    + apply Exists_cons_tl, Exists_cons_hd. exact I.
    + discriminate Hr.
Qed.

(** The amended failure semantics on the same two runs. *)
Lemma write_failure_semantics_witness :
  let w := world [None] 20 (Some forward) in
  (fst (stop_jog w) = Return false /\
   current_speed (snd (stop_jog w)) = 20) /\
  failure_leaves_state (jog 4999) w /\
  first_write_failure_leaves_state (set_jog_speed 100) w.
Proof.
  intros w.
  destruct (write_failure_semantics w) as (Hjog & Hset & Hstop).
  split.
  - apply Hstop. apply Exists_cons_hd. exact I.
  - split; [apply Hjog | apply Hset].
Defined.

(** [jog(FORWARD)], then [set_jog_speed(100)] while moving: JOG=100, then
    JOG=4999, and the direction is still Forward. *)
Lemma set_jog_speed_reasserts_direction_witness :
  let w := snd (jog 4999 (world [Some 0; Some 0; Some 0] 20 None)) in
  instrument w = Some [Some 0; Some 0] /\
  current_direction w = Some forward /\
  current_direction (snd (set_jog_speed 100 w)) = Some forward /\
  issued (set_jog_speed 100) w =
    [Write 1029 100 (Return tt); Write 1029 4999 (Return tt)].
Proof.
  intros w.
  assert (Hi : instrument w = Some [Some 0; Some 0]) by reflexivity.
  assert (Hd : current_direction w = Some forward) by reflexivity.
  destruct (set_jog_speed_reasserts_direction 100 forward _ w Hi Hd)
    as [Hdir Hw].
  destruct Hw as [Hw _]. destruct (Hw eq_refl) as (Hiss & _ & _).
  exact (conj Hi (conj Hd (conj Hdir Hiss))).
Defined.

(** [jog(1500)] passes the value on and tracks no direction for it. *)
Lemma jog_passes_other_values_witness :
  let w := world [Some 0] 20 (Some reverse) in
  issued (jog 1500) w = [Write 1029 1500 (Return tt)] /\
  current_direction (snd (jog 1500 w)) = Some reverse /\
  current_speed (snd (jog 1500 w)) = 20 /\
  fst (jog 1500 w) = Return true.
Proof.
  intros w.
  assert (Hf : 1500 <> FORWARD) by (unfold FORWARD; lia).
  assert (Hr : 1500 <> REVERSE) by (unfold REVERSE; lia).
  assert (Hs : 1500 <> STOP) by (unfold STOP; lia).
  exact (jog_passes_other_values 1500 [Some 0] w eq_refl Hf Hr Hs).
Defined.

(** [close] while moving forward at 500 rpm: STOP, then speed 20. *)
Lemma close_stops_then_resets_witness :
  let w := world [Some 0; Some 0] 500 (Some forward) in
  fst (close w) = Return tt /\
  issued close w = [Write 1029 5000 (Return tt); Write 1029 20 (Return tt)] /\
  current_direction (snd (close w)) = None /\
  current_speed (snd (close w)) = 20.
Proof.
  intros w.
  destruct (close_stops_then_resets [Some 0; Some 0] w eq_refl)
    as (Hr & Hiss & Hd & Hs).
  exact (conj Hr (conj Hiss (conj Hd (Hs eq_refl)))).
Defined.

(** A register that still holds FORWARD (4999) is not taken for a speed;
    one that holds 150 is. *)
Lemma initialize_speed_adopts_only_speeds_witness :
  current_speed (snd (initialize_speed (connected [Some 4999] __init__))) = 20 /\
  current_speed (snd (initialize_speed (connected [Some 150] __init__))) = 150 /\
  issued initialize_speed (connected [Some 4999] __init__)
    = [Read 1029 (Return 4999)].
Proof.
  destruct (initialize_speed_adopts_only_speeds [Some 4999]
              (connected [Some 4999] __init__) eq_refl) as (_ & Hiss & Hk & _).
  destruct (initialize_speed_adopts_only_speeds [Some 150]
              (connected [Some 150] __init__) eq_refl) as (_ & _ & Hk' & _).
  exact (conj Hk (conj Hk' Hiss)).
Defined.

(** ** Further facts about the controller *)

Section Protocol.

Context {T : Type} `{Transport T}.

(** The exchanges of one [set_jog_speed]. *)
Lemma set_jog_speed_wire speed (w : World T) :
  wire (snd (set_jog_speed speed w)) =
  wire w ++
  match instrument w with
  | None => []
  | Some t =>
      let r1 := fst (write_register t JOG (clamp speed)) in
      let t1 := snd (write_register t JOG (clamp speed)) in
      Write JOG (clamp speed) r1 ::
      (if succeeded r1 then
         match current_direction w with
         | Some d =>
             [Write JOG (command_of d)
                    (fst (write_register t1 JOG (command_of d)))]
         | None => []
         end
       else [])
  end.
Proof.
  rewrite set_jog_speed_run. destruct (instrument w) as [t|]; simpl.
  - destruct (write_register t JOG (clamp speed)) as [[u|e] t1]; simpl;
      [|reflexivity].
    destruct (current_direction w) as [d|]; simpl; [|reflexivity].
    rewrite jog_wire. simpl. rewrite <- app_assoc. reflexivity.
  - symmetry. apply app_nil_r.
Qed.

Lemma set_jog_speed_instrument speed (w : World T) :
  is_Some (instrument w) -> is_Some (instrument (snd (set_jog_speed speed w))).
Proof.
  intros [t Ht]. rewrite set_jog_speed_run, Ht.
  destruct (write_register t JOG (clamp speed)) as [[u|e] t1]; simpl; [|eauto].
  destruct (current_direction w) as [d|]; simpl; [|eauto].
  rewrite jog_run. simpl.
  destruct (write_register t1 JOG (command_of d)) as [[u'|e'] t2]; simpl; eauto.
Qed.

Lemma jog_instrument command (w : World T) :
  is_Some (instrument w) -> is_Some (instrument (snd (jog command w))).
Proof.
  intros [t Ht]. rewrite jog_run, Ht.
  destruct (write_register t JOG command) as [[u|e] t1]; simpl; eauto.
Qed.

(** X1: the three command codes drive the direction whatever it was
    before: a confirmed [jog(FORWARD)] leaves Forward, a confirmed
    [jog(REVERSE)] leaves Reverse, a confirmed [jog(STOP)] leaves Stopped.
    The call issues that one write, answers [True] and keeps the speed. *)
Theorem jog_command_sets_direction command t (w : World T) :
  instrument w = Some t ->
  succeeded (fst (write_register t JOG command)) = true ->
  fst (jog command w) = Return true /\
  issued (jog command) w = [Write JOG command (Return tt)] /\
  current_speed (snd (jog command w)) = current_speed w /\
  (command = FORWARD -> current_direction (snd (jog command w)) = Some forward) /\
  (command = REVERSE -> current_direction (snd (jog command w)) = Some reverse) /\
  (command = STOP -> current_direction (snd (jog command w)) = None).
Proof.
  intros Hi Hok. rewrite jog_issued, jog_run, Hi.
  destruct (write_register t JOG command) as [[[]|e] t1]; simpl in *;
    [|discriminate].
  repeat (split; [reflexivity|]).
  split; [|split]; intros ->; reflexivity.
Qed.

(** X2: before [connect] (no instrument) nothing reaches the line and
    nothing raises: [jog], [set_jog_speed], [stop_jog] and
    [check_connection] answer [False], [initialize_speed] returns, and
    [close] leaves the world exactly as it was.  The speed is kept, and so
    is the direction except that [stop_jog] sets it to Stopped. *)
Theorem unconnected_calls_fail_quietly (w : World T) :
  instrument w = None ->
  (forall command,
     fst (jog command w) = Return false /\
     wire (snd (jog command w)) = wire w /\
     current_speed (snd (jog command w)) = current_speed w /\
     current_direction (snd (jog command w)) = current_direction w) /\
  (forall speed,
     fst (set_jog_speed speed w) = Return false /\
     wire (snd (set_jog_speed speed w)) = wire w /\
     current_speed (snd (set_jog_speed speed w)) = current_speed w /\
     current_direction (snd (set_jog_speed speed w)) = current_direction w) /\
  (fst (stop_jog w) = Return false /\
   wire (snd (stop_jog w)) = wire w /\
   current_speed (snd (stop_jog w)) = current_speed w /\
   current_direction (snd (stop_jog w)) = None) /\
  (fst (check_connection w) = Return false /\
   wire (snd (check_connection w)) = wire w /\
   current_speed (snd (check_connection w)) = current_speed w /\
   current_direction (snd (check_connection w)) = current_direction w) /\
  (fst (initialize_speed w) = Return tt /\
   wire (snd (initialize_speed w)) = wire w /\
   current_speed (snd (initialize_speed w)) = current_speed w /\
   current_direction (snd (initialize_speed w)) = current_direction w) /\
  close w = (Return tt, w).
Proof.
  intros Hi.
  split; [intros command; rewrite jog_run, Hi; auto|].
  split; [intros speed; rewrite set_jog_speed_run, Hi; auto|].
  split; [rewrite stop_jog_run, jog_run; simpl; rewrite Hi; auto|].
  split; [rewrite check_connection_run, Hi; auto|].
  split; [rewrite initialize_speed_run, Hi; auto|].
  unfold close. rewrite Hi. reflexivity.
Qed.

(** X3: [set_jog_speed] on a connected controller that is stopped issues
    the speed write and nothing else: no motion command follows it, and
    the controller stays stopped. *)
Theorem set_jog_speed_while_stopped speed t (w : World T) :
  instrument w = Some t ->
  current_direction w = None ->
  issued (set_jog_speed speed) w =
    [Write JOG (clamp speed) (fst (write_register t JOG (clamp speed)))] /\
  current_direction (snd (set_jog_speed speed w)) = None /\
  fst (set_jog_speed speed w) =
    Return (succeeded (fst (write_register t JOG (clamp speed)))).
Proof.
  intros Hi Hd. split.
  { apply issued_app. rewrite set_jog_speed_wire, Hi, Hd. simpl.
    destruct (succeeded _); reflexivity. }
  split; [rewrite set_jog_speed_direction; exact Hd|].
  rewrite set_jog_speed_run, Hi.
  destruct (write_register t JOG (clamp speed)) as [[u|e] t1]; reflexivity.
Qed.

(** The answer of [set_jog_speed] tells whether the speed was stored. *)
Lemma set_jog_speed_result speed (w : World T) :
  (fst (set_jog_speed speed w) = Return true /\
   current_speed (snd (set_jog_speed speed w)) = clamp speed) \/
  (fst (set_jog_speed speed w) = Return false /\
   current_speed (snd (set_jog_speed speed w)) = current_speed w).
Proof.
  rewrite set_jog_speed_run. destruct (instrument w) as [t|]; [|auto].
  destruct (write_register t JOG (clamp speed)) as [[u|e] t1]; simpl; [|auto].
  left. split; [reflexivity|].
  destruct (current_direction w) as [d|]; simpl; [|reflexivity].
  apply jog_current_speed.
Qed.

(** X4: [increase_speed(k)] followed by [decrease_speed(k)], both answering
    [True], leaves the speed [clamp (clamp (s + k) - k)]; this is the speed
    [s] held before whenever [s] and [s + k] lie in 0..3000 with [k >= 0],
    and a lower one when [s] is a positive speed of the range and the
    increase was clamped. *)
Theorem increase_then_decrease k (w : World T) :
  let w1 := snd (increase_speed k w) in
  let w2 := snd (decrease_speed k w1) in
  fst (increase_speed k w) = Return true ->
  fst (decrease_speed k w1) = Return true ->
  current_speed w2 = clamp (clamp (current_speed w + k) - k) /\
  (0 <= k -> 0 <= current_speed w -> current_speed w + k <= 3000 ->
   current_speed w2 = current_speed w) /\
  (0 < current_speed w <= 3000 -> 3000 < current_speed w + k ->
   current_speed w2 < current_speed w).
Proof.
  intros w1 w2 H1 H2.
  assert (Hs1 : current_speed w1 = clamp (current_speed w + k)).
  { destruct (set_jog_speed_result (current_speed w + k) w) as [[_ Hs]|[Hf _]].
    - exact Hs.
    - unfold increase_speed, bind, get_current_speed in H1. simpl in H1.
      rewrite Hf in H1. discriminate. }
  assert (Hs2 : current_speed w2 = clamp (current_speed w1 - k)).
  { destruct (set_jog_speed_result (current_speed w1 - k) w1) as [[_ Hs]|[Hf _]].
    - exact Hs.
    - unfold decrease_speed, bind, get_current_speed in H2. simpl in H2.
      rewrite Hf in H2. discriminate. }
  rewrite Hs2, Hs1. split; [reflexivity|].
  destruct (clamp_cases (current_speed w + k)) as (Ha & Hb & Hc).
  split.
  - intros Hk Hs Hsk. rewrite Hc by lia.
    destruct (clamp_cases (current_speed w + k - k)) as (_ & _ & Hc').
    rewrite Hc' by lia. lia.
  - intros Hs Hsk. rewrite Hb by lia.
    destruct (clamp_cases (3000 - k)) as (Ha' & _ & Hc').
    destruct (Z_lt_le_dec (3000 - k) 0).
    + rewrite Ha' by lia. lia.
    + rewrite Hc' by lia. lia.
Qed.

(** X5: from a speed of the range, a step [k >= 0] up never lowers the
    speed and a step down never raises it, and both saturate: the speed
    after [increase_speed(k)] is [min 3000 (s + k)] when the call answers
    [True] and [s] when it answers [False]; after [decrease_speed(k)] it is
    [max 0 (s - k)] or [s]. *)
Theorem speed_steps_saturate k (w : World T) :
  0 <= k ->
  in_speed_range (current_speed w) ->
  (exists b,
     fst (increase_speed k w) = Return b /\
     current_speed (snd (increase_speed k w)) =
       (if b then Z.min 3000 (current_speed w + k) else current_speed w)) /\
  (exists b,
     fst (decrease_speed k w) = Return b /\
     current_speed (snd (decrease_speed k w)) =
       (if b then Z.max 0 (current_speed w - k) else current_speed w)).
Proof.
  unfold in_speed_range, SPEED_MIN, SPEED_MAX. intros Hk Hs. split.
  - destruct (set_jog_speed_result (current_speed w + k) w) as [[Hr Hv]|[Hr Hv]].
    + exists true. split; [exact Hr|].
      change (current_speed (snd (set_jog_speed (current_speed w + k) w))
              = Z.min 3000 (current_speed w + k)).
      rewrite Hv. destruct (clamp_cases (current_speed w + k)) as (_ & Hb & Hc).
      destruct (Z_lt_le_dec 3000 (current_speed w + k)).
      * rewrite Hb by lia. lia.
      * rewrite Hc by lia. lia.
    + exists false. split; [exact Hr|exact Hv].
  - destruct (set_jog_speed_result (current_speed w - k) w) as [[Hr Hv]|[Hr Hv]].
    + exists true. split; [exact Hr|].
      change (current_speed (snd (set_jog_speed (current_speed w - k) w))
              = Z.max 0 (current_speed w - k)).
      rewrite Hv. destruct (clamp_cases (current_speed w - k)) as (Ha & _ & Hc).
      destruct (Z_lt_le_dec (current_speed w - k) 0).
      * rewrite Ha by lia. lia.
      * rewrite Hc by lia. lia.
    + exists false. split; [exact Hr|exact Hv].
Qed.

(** X6: the start-up checks only read.  [check_connection] issues at most
    two reads, VERSION first, and does not read ERROR when the read of
    VERSION fails; [initialize_speed] issues at most one read; neither
    writes a register or changes the direction, and [check_connection]
    does not change the speed. *)
Theorem start_up_checks_only_read (w : World T) :
  Forall is_read (issued check_connection w) /\
  (length (issued check_connection w) <= 2)%nat /\
  (forall t e,
     instrument w = Some t -> fst (read_register t VERSION) = Raise e ->
     issued check_connection w = [Read VERSION (Raise e)]) /\
  current_speed (snd (check_connection w)) = current_speed w /\
  current_direction (snd (check_connection w)) = current_direction w /\
  Forall is_read (issued initialize_speed w) /\
  (length (issued initialize_speed w) <= 1)%nat /\
  current_direction (snd (initialize_speed w)) = current_direction w.
Proof.
  assert (Hc : exists l,
             wire (snd (check_connection w)) = wire w ++ l /\
             Forall is_read l /\ (length l <= 2)%nat /\
             (forall t e,
                instrument w = Some t ->
                fst (read_register t VERSION) = Raise e ->
                l = [Read VERSION (Raise e)]) /\
             current_direction (snd (check_connection w)) = current_direction w).
  { rewrite check_connection_run. destruct (instrument w) as [t|].
    - destruct (read_register t VERSION) as [[version|e] t1] eqn:Hv; simpl.
      + destruct (read_register t1 ERROR) as [[error_code|e] t2]; simpl.
        * exists [Read VERSION (Return version); Read ERROR (Return error_code)].
          destruct (error_code =? 0); simpl;
            (split; [reflexivity|]); (split; [repeat constructor|]);
            (split; [lia|]); (split; [|reflexivity]);
            intros t' e' [= <-]; rewrite Hv; discriminate.
        * exists [Read VERSION (Return version); Read ERROR (Raise e)].
          (split; [reflexivity|]); (split; [repeat constructor|]);
            (split; [simpl; lia|]); (split; [|reflexivity]).
          intros t' e' [= <-]. rewrite Hv. discriminate.
      + exists [Read VERSION (Raise e)].
        (split; [reflexivity|]); (split; [repeat constructor|]);
          (split; [simpl; lia|]); (split; [|reflexivity]).
        intros t' e' [= <-]. rewrite Hv. simpl. intros [= ->]. reflexivity.
    - exists []. simpl. rewrite app_nil_r.
      (split; [reflexivity|]); (split; [constructor|]);
        (split; [simpl; lia|]); (split; [|reflexivity]).
      discriminate. }
  assert (Hi : exists l,
             wire (snd (initialize_speed w)) = wire w ++ l /\
             Forall is_read l /\ (length l <= 1)%nat /\
             current_direction (snd (initialize_speed w)) = current_direction w).
  { rewrite initialize_speed_run. destruct (instrument w) as [t|].
    - destruct (read_register t JOG) as [[v|e] t1]; simpl.
      + exists [Read JOG (Return v)].
        destruct (v <=? SPEED_MAX); simpl; repeat split; repeat constructor.
      + exists [Read JOG (Raise e)]. repeat split; repeat constructor.
    - exists []. simpl. rewrite app_nil_r.
      repeat split; [constructor | simpl; lia]. }
  destruct Hc as (lc & Hwc & Hrc & Hlc & Hvc & Hdc).
  destruct Hi as (li & Hwi & Hri & Hli & Hdi).
  rewrite (issued_app _ _ _ Hwc), (issued_app _ _ _ Hwi).
  split; [exact Hrc|]. split; [exact Hlc|]. split; [exact Hvc|].
  split; [apply check_connection_current_speed|].
  split; [exact Hdc|]. split; [exact Hri|]. split; [exact Hli|exact Hdi].
Qed.

(** X7: [reset_speed_to_initial] answers [True] whatever happens: it does
    not look at the answer of [set_jog_speed(20)], so after a failed write
    it has answered [True] with the speed left as it was. *)
Theorem reset_speed_to_initial_always_true (w : World T) :
  fst (reset_speed_to_initial w) = Return true /\
  (fst (set_jog_speed 20 w) = Return true ->
   current_speed (snd (reset_speed_to_initial w)) = 20) /\
  (fst (set_jog_speed 20 w) = Return false ->
   current_speed (snd (reset_speed_to_initial w)) = current_speed w).
Proof.
  rewrite reset_speed_to_initial_run. simpl.
  split; [reflexivity|].
  destruct (set_jog_speed_result 20 w) as [[Hr Hv]|[Hr Hv]]; rewrite Hr, Hv;
    split; intros; try discriminate; reflexivity.
Qed.

Lemma clamp_idempotent s : clamp (clamp s) = clamp s.
Proof.
  pose proof (clamp_in_range s).
  destruct (clamp_cases (clamp s)) as (_ & _ & Hc). apply Hc. assumption.
Qed.

(** X8: clamping is absorbed: [set_jog_speed] called with a speed, or with
    that speed already clamped, runs to the same answer and the same
    world. *)
Theorem set_jog_speed_of_clamped speed (w : World T) :
  set_jog_speed (clamp speed) w = set_jog_speed speed w.
Proof. rewrite !set_jog_speed_run, clamp_idempotent. reflexivity. Qed.

(** X9: [stop_jog()] and [jog(STOP)] run to the same answer and the same
    world when the controller is already stopped or the write is
    confirmed.  They part only on a failed write while moving: [stop_jog]
    then leaves Stopped, [jog(STOP)] the direction held. *)
Theorem stop_jog_agrees_with_jog_stop (w : World T) :
  (current_direction w = None \/ fst (jog STOP w) = Return true ->
   stop_jog w = jog STOP w) /\
  (forall d,
     current_direction w = Some d -> fst (jog STOP w) = Return false ->
     fst (stop_jog w) = Return false /\
     current_direction (snd (stop_jog w)) = None /\
     current_direction (snd (jog STOP w)) = Some d).
Proof.
  rewrite stop_jog_run, !jog_run. destruct w as [i sp d out wr]; simpl.
  split.
  - intros [->|Hok]; [reflexivity|].
    destruct i as [t|]; [|discriminate].
    destruct (write_register t JOG STOP) as [[u|e] t1]; simpl in *;
      [reflexivity|discriminate].
  - intros d' -> Hf. destruct i as [t|]; simpl; [|auto].
    destruct (write_register t JOG STOP) as [[u|e] t1]; simpl in *;
      [discriminate|auto].
Qed.

(** X10: only three calls move the direction: [jog] with one of the three
    command codes, [stop_jog] and [close].  Every other call, [jog] with
    any other value included, leaves [current_direction] as it was. *)
Theorem direction_moves_only_on_command (c : call) (w : World T) :
  match c with
  | Jog command => reserved_code command
  | StopJog | Close => True
  | _ => False
  end \/
  current_direction (perform c w) = current_direction w.
Proof.
  destruct c; cbn [perform]; try (left; exact I).
  - right. reflexivity.
  - right. rewrite check_connection_run.
    destruct (instrument w) as [t|]; [|reflexivity].
    destruct (read_register t VERSION) as [[version|e] t1]; [|reflexivity].
    destruct (read_register t1 ERROR) as [[error_code|e] t2]; [|reflexivity].
    destruct (error_code =? 0); reflexivity.
  - right. rewrite initialize_speed_run.
    destruct (instrument w) as [t|]; [|reflexivity].
    destruct (read_register t JOG) as [[v|e] t1]; [|reflexivity].
    destruct (v <=? SPEED_MAX); reflexivity.
  - right. apply set_jog_speed_direction.
  - right. apply (set_jog_speed_direction _ w).
  - right. apply (set_jog_speed_direction _ w).
  - unfold reserved_code.
    destruct (Z.eq_dec command FORWARD); [tauto|].
    destruct (Z.eq_dec command REVERSE); [tauto|].
    destruct (Z.eq_dec command STOP); [tauto|]. right.
    rewrite jog_run. destruct (instrument w) as [t|]; [|reflexivity].
    destruct (write_register t JOG command) as [[u|e] t1]; [|reflexivity].
    apply direction_after_other. unfold reserved_code. tauto.
  - right. rewrite reset_speed_to_initial_run.
    apply (set_jog_speed_direction 20 w).
Qed.

Lemma perform_instrument (c : call) (w : World T) :
  is_Some (instrument w) -> is_Some (instrument (perform c w)).
Proof.
  intros Hw. destruct c; cbn [perform].
  - eauto.
  - destruct Hw as [t Ht]. rewrite check_connection_run, Ht.
    destruct (read_register t VERSION) as [[version|e] t1]; simpl; [|eauto].
    destruct (read_register t1 ERROR) as [[error_code|e] t2]; simpl; [|eauto].
    destruct (error_code =? 0); simpl; eauto.
  - destruct Hw as [t Ht]. rewrite initialize_speed_run, Ht.
    destruct (read_register t JOG) as [[v|e] t1]; simpl; [|eauto].
    destruct (v <=? SPEED_MAX); simpl; eauto.
  - apply set_jog_speed_instrument, Hw.
  - apply (set_jog_speed_instrument _ w Hw).
  - apply (set_jog_speed_instrument _ w Hw).
  - apply jog_instrument, Hw.
  - rewrite stop_jog_run. apply jog_instrument. exact Hw.
  - rewrite reset_speed_to_initial_run. apply (set_jog_speed_instrument 20 w Hw).
  - destruct Hw as [t Ht]. rewrite (close_run t w Ht), reset_speed_to_initial_run.
    apply (set_jog_speed_instrument 20). rewrite stop_jog_run.
    apply jog_instrument. simpl. eauto.
Qed.

(** X11: no call releases the instrument: once the controller holds one it
    holds one after any sequence of calls, [close] included. *)
Theorem instrument_is_never_released (calls : list call) (w : World T) :
  is_Some (instrument w) -> is_Some (instrument (run calls w)).
Proof.
  revert w. induction calls as [|c calls IH]; intros w Hw; simpl.
  - exact Hw.
  - apply IH, perform_instrument, Hw.
Qed.

Lemma jog_sanctioned raw command (w : World T) :
  in_speed_range command \/ reserved_code command \/ In command raw ->
  Forall (sanctioned raw) (wire w) ->
  Forall (sanctioned raw) (wire (snd (jog command w))).
Proof.
  intros Hc Hw. rewrite jog_wire. apply Forall_app. split; [exact Hw|].
  destruct (instrument w) as [t|]; [|constructor].
  constructor; [|constructor]. split; [reflexivity|exact Hc].
Qed.

Lemma set_jog_speed_sanctioned raw speed (w : World T) :
  Forall (sanctioned raw) (wire w) ->
  Forall (sanctioned raw) (wire (snd (set_jog_speed speed w))).
Proof.
  intros Hw. rewrite set_jog_speed_wire. apply Forall_app. split; [exact Hw|].
  destruct (instrument w) as [t|]; [|constructor]. simpl.
  constructor.
  - split; [reflexivity|]. left. apply clamp_in_range.
  - destruct (succeeded _); [|constructor].
    destruct (current_direction w) as [d|]; [|constructor].
    constructor; [|constructor]. split; [reflexivity|].
    right. left. unfold reserved_code. destruct d; simpl; auto.
Qed.

Lemma stop_jog_sanctioned raw (w : World T) :
  Forall (sanctioned raw) (wire w) ->
  Forall (sanctioned raw) (wire (snd (stop_jog w))).
Proof.
  intros Hw. rewrite stop_jog_run. apply jog_sanctioned; [|exact Hw].
  right. left. unfold reserved_code. auto.
Qed.

Lemma check_connection_sanctioned raw (w : World T) :
  Forall (sanctioned raw) (wire w) ->
  Forall (sanctioned raw) (wire (snd (check_connection w))).
Proof.
  intros Hw. rewrite check_connection_run.
  destruct (instrument w) as [t|]; [|exact Hw].
  destruct (read_register t VERSION) as [[version|e] t1]; simpl.
  - destruct (read_register t1 ERROR) as [[error_code|e] t2]; simpl;
      [destruct (error_code =? 0); simpl|];
      apply Forall_app; (split; [exact Hw|]);
      repeat apply List.Forall_cons; try apply List.Forall_nil; simpl; auto.
  - apply Forall_app. split; [exact Hw|].
    repeat apply List.Forall_cons; try apply List.Forall_nil; simpl; auto.
Qed.

Lemma initialize_speed_sanctioned raw (w : World T) :
  Forall (sanctioned raw) (wire w) ->
  Forall (sanctioned raw) (wire (snd (initialize_speed w))).
Proof.
  intros Hw. rewrite initialize_speed_run.
  destruct (instrument w) as [t|]; [|exact Hw].
  destruct (read_register t JOG) as [[v|e] t1]; simpl;
    [destruct (v <=? SPEED_MAX); simpl|];
    apply Forall_app; (split; [exact Hw|]);
    repeat apply List.Forall_cons; try apply List.Forall_nil; simpl; auto.
Qed.

Lemma close_sanctioned raw (w : World T) :
  Forall (sanctioned raw) (wire w) ->
  Forall (sanctioned raw) (wire (snd (close w))).
Proof.
  intros Hw. destruct (instrument w) as [t|] eqn:Hi.
  - rewrite (close_run t w Hi), reset_speed_to_initial_run. simpl.
    apply set_jog_speed_sanctioned, stop_jog_sanctioned, Hw.
  - unfold close. rewrite Hi. exact Hw.
Qed.

Lemma perform_sanctioned raw (c : call) (w : World T) :
  (forall command, c = Jog command -> In command raw) ->
  Forall (sanctioned raw) (wire w) ->
  Forall (sanctioned raw) (wire (perform c w)).
Proof.
  intros Hc Hw. destruct c; cbn [perform].
  - exact Hw.
  - apply check_connection_sanctioned, Hw.
  - apply initialize_speed_sanctioned, Hw.
  - apply set_jog_speed_sanctioned, Hw.
  - apply (set_jog_speed_sanctioned raw _ w Hw).
  - apply (set_jog_speed_sanctioned raw _ w Hw).
  - apply jog_sanctioned; [|exact Hw]. right. right. apply Hc. reflexivity.
  - apply stop_jog_sanctioned, Hw.
  - rewrite reset_speed_to_initial_run. apply (set_jog_speed_sanctioned raw 20 w Hw).
  - apply close_sanctioned, Hw.
Qed.

Lemma run_sanctioned raw (calls : list call) (w : World T) :
  (forall command, In (Jog command) calls -> In command raw) ->
  Forall (sanctioned raw) (wire w) ->
  Forall (sanctioned raw) (wire (run calls w)).
Proof.
  revert w. induction calls as [|c calls IH]; intros w Hc Hw; simpl.
  - exact Hw.
  - apply IH.
    + intros command Hin. apply Hc. right. exact Hin.
    + apply perform_sanctioned; [|exact Hw].
      intros command ->. apply Hc. left. reflexivity.
Qed.

(** X12: whatever calls are made on a controller, every exchange on the
    line is a read of VERSION, ERROR or JOG, or a write to the JOG
    register; and a value written is a speed of 0..3000, one of the three
    command codes, or a value that a caller passed to [jog] itself.  No
    other register is ever written. *)
Theorem line_carries_only_sanctioned_exchanges (calls : list call) :
  Forall (sanctioned (jog_arguments calls)) (wire (run calls (@__init__ T))).
Proof.
  apply run_sanctioned; [|constructor].
  intros command Hin. unfold jog_arguments. apply in_flat_map.
  exists (Jog command). split; [exact Hin|]. left. reflexivity.
Qed.

End Protocol.

(** ** Facts about the start-up and the operator loop *)

Arguments instructions : simpl never.

Section HostFacts.

Context {T V : Type} `{Transport T} `{Host T V}.

Lemma has_setting_lookup (m : gmap string V) key v :
  m !! key = Some v -> has_setting (Mapping m) key.
Proof. intros Hm. exists m, v. auto. Qed.

Lemma has_setting_missing (m : gmap string V) key :
  m !! key = None -> ~ has_setting (Mapping m) key.
Proof. intros Hm (m' & v & [= <-] & Hv). congruence. Qed.

Lemma has_setting_not_subscriptable e key :
  ~ has_setting (@NotSubscriptable V e) key.
Proof. intros (m & v & Hm & _). discriminate. Qed.

(** [connect], outcome by outcome: it touches the instrument and the
    console only; [True] needs the instrument opened and the seven keys;
    a failure before the instrument is opened leaves the attribute as it
    was; once opened, the instrument is held. *)
Lemma connect_cases config opened (w : World T) :
  exists b i lines,
    connect config opened w =
    (Return b,
     mkWorld i (current_speed w) (current_direction w) (stdout w ++ lines)
             (wire w)) /\
    (b = true ->
     (exists t, opened = Return t) /\
     Forall (has_setting config) connection_keys /\
     is_Some i /\ length lines = 1%nat) /\
    (~ has_setting config "port" \/ ~ has_setting config "slave_address" \/
     (exists e, opened = Raise e) ->
     b = false /\ i = instrument w) /\
    (has_setting config "port" -> has_setting config "slave_address" ->
     (exists t, opened = Return t) -> is_Some i).
Proof.
  connect_unfold. destruct w as [i sp d out wr]; cbn [instrument current_speed
    current_direction stdout wire].
  destruct config as [m|e].
  2:{ cbv beta iota. do 3 eexists. rewrite <- ?app_assoc.
      split; [reflexivity|]. split; [discriminate|].
      split; [intros _; split; reflexivity|].
      intros Hp. exfalso. eapply has_setting_not_subscriptable, Hp. }
  destruct opened as [t|e]; repeat connect_step;
    do 3 eexists; rewrite <- ?app_assoc; (split; [reflexivity|]);
    (split;
     [first
        [ discriminate
        | intros _; split; [eauto|]; split; [|split; [eauto|reflexivity]];
          unfold connection_keys;
          repeat apply List.Forall_cons; try apply List.Forall_nil;
          eapply has_setting_lookup; eassumption ]
     |]);
    (split;
     [ intros [Hno|[Hno|[e' He']]];
       first
         [ split; reflexivity
         | discriminate He'
         | exfalso; apply Hno; eapply has_setting_lookup; eassumption ]
     | intros Hport Hslave [t' Ht'];
       first
         [ exfalso; eapply has_setting_missing; eassumption
         | discriminate Ht'
         | eauto ] ]).
Qed.

(** X13: [connect] never raises, issues no exchange on the line and
    leaves [current_speed] and [current_direction] alone, whatever the
    configuration holds and whatever the port does. *)
Theorem connect_keeps_controller_state config opened (w : World T) :
  (exists b, fst (connect config opened w) = Return b) /\
  current_speed (snd (connect config opened w)) = current_speed w /\
  current_direction (snd (connect config opened w)) = current_direction w /\
  wire (snd (connect config opened w)) = wire w.
Proof.
  destruct (connect_cases config opened w) as (b & i & lines & -> & _).
  simpl. eauto.
Qed.

(** X14: [connect] answers [True] only when the instrument could be
    opened and the configuration is a mapping that holds all seven keys
    (port, slave_address, baudrate, bytesize, parity, stopbits, timeout);
    the controller then holds an instrument and one line has been
    printed. *)
Theorem connect_true_means_configured config opened (w : World T) :
  fst (connect config opened w) = Return true ->
  (exists t, opened = Return t) /\
  Forall (has_setting config) connection_keys /\
  is_Some (instrument (snd (connect config opened w))) /\
  exists line, stdout (snd (connect config opened w)) = stdout w ++ [line].
Proof.
  destruct (connect_cases config opened w)
    as (b & i & lines & -> & Htrue & _).
  simpl. intros [= ->]. destruct (Htrue eq_refl) as (Ho & Hk & Hi & Hl).
  split; [exact Ho|]. split; [exact Hk|]. split; [exact Hi|].
  destruct lines as [|line [|? ?]]; try discriminate. eauto.
Qed.

(** X15: with all seven keys in the configuration, an instrument that
    opens and a serial port that takes every attribute, [connect] answers
    [True]. *)
Theorem connect_succeeds_when_configured config t (w : World T) :
  (forall t' name v, fst (serial_setattr t' name v) = Return tt) ->
  Forall (has_setting config) connection_keys ->
  fst (connect config (Return t) w) = Return true.
Proof.
  intros Hport Hkeys. unfold connection_keys in Hkeys.
  repeat match goal with
         | Hk : Forall _ (_ :: _) |- _ =>
             apply Forall_cons in Hk; destruct Hk as [? Hk]
         end.
  destruct config as [m|e];
    [|exfalso; eapply has_setting_not_subscriptable; eassumption].
  repeat match goal with
         | Hs : has_setting (Mapping m) _ |- _ =>
             destruct Hs as (? & ? & [= <-] & ?)
         end.
  connect_unfold. destruct w as [i sp d out wr]; simpl.
  repeat match goal with
         | Hl : m !! _ = Some _ |- _ => rewrite Hl; simpl; clear Hl
         | |- context [serial_setattr ?t ?n ?v] =>
             let Hp := fresh in
             pose proof (Hport t n v) as Hp;
             destruct (serial_setattr t n v) as [r ?]; simpl in Hp; subst r;
             simpl
         end.
  reflexivity.
Qed.

(** X16: where a failed [connect] leaves the instrument.  When "port" or
    "slave_address" is missing, or the instrument does not open, the
    answer is [False] and the attribute [instrument] is what it was
    before.  Once the instrument has opened the controller holds one,
    also when a later key is missing or the port refuses an attribute
    and the answer is [False]. *)
Theorem connect_failure_and_instrument config opened (w : World T) :
  (~ has_setting config "port" \/ ~ has_setting config "slave_address" \/
   (exists e, opened = Raise e) ->
   fst (connect config opened w) = Return false /\
   instrument (snd (connect config opened w)) = instrument w) /\
  (has_setting config "port" -> has_setting config "slave_address" ->
   (exists t, opened = Return t) ->
   is_Some (instrument (snd (connect config opened w)))).
Proof.
  destruct (connect_cases config opened w)
    as (b & i & lines & -> & _ & Hearly & Hlate).
  simpl. split.
  - intros Hno. destruct (Hearly Hno) as [-> ->]. auto.
  - exact Hlate.
Qed.

Lemma bind_print {A} line (k : unit -> M T A) (w : World T) :
  bind (print line) k w = k tt (say line w).
Proof. reflexivity. Qed.

Lemma bind_get_current_speed {A} (k : Z -> M T A) (w : World T) :
  bind get_current_speed k w = k (current_speed w) w.
Proof. reflexivity. Qed.

(** One turn of the loop of [main] on a line of the operator. *)
Lemma command_loop_line command keys (w : World T) :
  command_loop (Line command :: keys) w =
  let w0 := say "Введите команду: " w in
  if String.eqb command "w" then
    let w1 := perform (Jog FORWARD) w0 in
    command_loop keys
      (say ("➡️  Вращение ВПЕРЕД (" +:+ pretty (current_speed w1) +:+ " об/мин)") w1)
  else if String.eqb command "s" then
    let w1 := perform (Jog REVERSE) w0 in
    command_loop keys
      (say ("⬅️  Вращение НАЗАД (" +:+ pretty (current_speed w1) +:+ " об/мин)") w1)
  else if String.eqb command " " || String.eqb command "" then
    command_loop keys (say "⏹️  Остановлено" (perform StopJog w0))
  else if String.eqb command "+" then
    let w1 := perform (IncreaseSpeed JOG_STEP) w0 in
    command_loop keys
      (say ("📈 Скорость увеличена: " +:+ pretty (current_speed w1) +:+ " об/мин") w1)
  else if String.eqb command "-" then
    let w1 := perform (DecreaseSpeed JOG_STEP) w0 in
    command_loop keys
      (say ("📉 Скорость уменьшена: " +:+ pretty (current_speed w1) +:+ " об/мин") w1)
  else if String.eqb command "q" then
    (Return Quit, say (newline +:+ "👋 Выход из программы...") w0)
  else
    command_loop keys
      (say "❌ Неизвестная команда. Используйте w, s, пробел, +, - или q." w0).
Proof.
  cbn [command_loop]. rewrite bind_print. cbv zeta.
  set (w0 := say "Введите команду: " w).
  destruct (String.eqb command "w").
  { resolve_subscripts. change (bind (ret 4999) ?k w0) with (k 4999 w0).
    cbv beta. destruct (jog_returns 4999 w0) as [b Hb].
    rewrite (bind_run (jog 4999) _ w0 b Hb). reflexivity. }
  destruct (String.eqb command "s").
  { resolve_subscripts. change (bind (ret 4998) ?k w0) with (k 4998 w0).
    cbv beta. destruct (jog_returns 4998 w0) as [b Hb].
    rewrite (bind_run (jog 4998) _ w0 b Hb). reflexivity. }
  destruct (String.eqb command " " || String.eqb command "").
  { destruct (stop_jog_returns w0) as [b Hb].
    rewrite (bind_run stop_jog _ w0 b Hb). reflexivity. }
  destruct (String.eqb command "+").
  { destruct (set_jog_speed_returns (current_speed w0 + JOG_STEP) w0) as [b Hb].
    rewrite (bind_run (increase_speed JOG_STEP) _ w0 b Hb). reflexivity. }
  destruct (String.eqb command "-").
  { destruct (set_jog_speed_returns (current_speed w0 - JOG_STEP) w0) as [b Hb].
    rewrite (bind_run (decrease_speed JOG_STEP) _ w0 b Hb). reflexivity. }
  destruct (String.eqb command "q"); reflexivity.
Qed.

Lemma command_loop_end keys (w : World T) :
  fst (command_loop keys w) = Return (loop_end keys).
Proof.
  revert w. induction keys as [|[command|] keys IH]; intros w;
    [reflexivity| |reflexivity].
  rewrite command_loop_line. cbn [loop_end]. cbv zeta.
  destruct (String.eqb_spec command "w") as [->|]; [apply IH|].
  destruct (String.eqb_spec command "s") as [->|]; [apply IH|].
  destruct (String.eqb_spec command " ") as [->|]; [apply IH|].
  destruct (String.eqb_spec command "") as [->|]; [apply IH|]. simpl.
  destruct (String.eqb_spec command "+") as [->|]; [apply IH|].
  destruct (String.eqb_spec command "-") as [->|]; [apply IH|].
  destruct (String.eqb command "q"); [reflexivity|apply IH].
Qed.

(** What every line printed and every call of the loop keeps, the loop
    keeps. *)
Lemma command_loop_keeps (I : World T -> Prop) :
  (forall line w, I w -> I (say line w)) ->
  (forall c w, In c operator_calls -> I w -> I (perform c w)) ->
  forall keys w, I w -> I (snd (command_loop keys w)).
Proof.
  intros Hsay Hcall. unfold operator_calls in Hcall.
  induction keys as [|[command|] keys IH]; intros w Hw;
    [apply Hsay, Hw| |apply Hsay, Hw].
  rewrite command_loop_line. cbv zeta.
  destruct (String.eqb command "w");
    [apply IH, Hsay, Hcall; [simpl; tauto|apply Hsay, Hw]|].
  destruct (String.eqb command "s");
    [apply IH, Hsay, Hcall; [simpl; tauto|apply Hsay, Hw]|].
  destruct (String.eqb command " " || String.eqb command "");
    [apply IH, Hsay, Hcall; [simpl; tauto|apply Hsay, Hw]|].
  destruct (String.eqb command "+");
    [apply IH, Hsay, Hcall; [simpl; tauto|apply Hsay, Hw]|].
  destruct (String.eqb command "-");
    [apply IH, Hsay, Hcall; [simpl; tauto|apply Hsay, Hw]|].
  destruct (String.eqb command "q"); [apply Hsay, Hsay, Hw|].
  apply IH, Hsay, Hsay, Hw.
Qed.


Lemma check_connection_returns (w : World T) :
  exists b, fst (check_connection w) = Return b.
Proof.
  rewrite check_connection_run. destruct (instrument w) as [t|]; [|eauto].
  destruct (read_register t VERSION) as [[version|e] t1]; [|eauto].
  destruct (read_register t1 ERROR) as [[error_code|e] t2]; [|eauto].
  destruct (error_code =? 0); eauto.
Qed.

Lemma initialize_speed_returns (w : World T) :
  fst (initialize_speed w) = Return tt.
Proof.
  rewrite initialize_speed_run. destruct (instrument w) as [t|]; [|reflexivity].
  destruct (read_register t JOG) as [[v|e] t1]; [|reflexivity].
  destruct (v <=? SPEED_MAX); reflexivity.
Qed.

Lemma close_returns (w : World T) : fst (close w) = Return tt.
Proof.
  destruct (instrument w) as [t|] eqn:Hi.
  - rewrite (close_run t w Hi). reflexivity.
  - unfold close. rewrite Hi. reflexivity.
Qed.

(** The two writes of [close] on a connected controller. *)
Lemma close_wire t (w : World T) :
  instrument w = Some t ->
  current_direction (snd (close w)) = None /\
  exists r1 r2,
    wire (snd (close w)) = wire w ++ [Write JOG STOP r1; Write JOG 20 r2].
Proof.
  intros Hi. rewrite (close_run t w Hi), reset_speed_to_initial_run. simpl.
  rewrite set_jog_speed_direction, set_jog_speed_wire.
  rewrite stop_jog_run, jog_run. simpl. rewrite Hi.
  change (direction_after STOP None) with (@None direction).
  change (clamp 20) with 20.
  destruct (write_register t JOG STOP) as [[u|e] t1]; simpl;
    (split; [reflexivity|]); eexists; eexists; rewrite <- app_assoc; simpl;
    destruct (succeeded _); reflexivity.
Qed.

(** [connect] touches the instrument and the console only. *)
Lemma connect_outcome config opened (w : World T) :
  exists b i lines,
    connect config opened w =
    (Return b,
     mkWorld i (current_speed w) (current_direction w) (stdout w ++ lines)
             (wire w)) /\
    (b = true -> is_Some i).
Proof.
  destruct (connect_cases config opened w)
    as (b & i & lines & Hc & Htrue & _).
  exists b, i, lines. split; [exact Hc|].
  intros Hb. apply Htrue, Hb.
Qed.

Lemma load_config_outcome config_file (file : loaded V) (w : World T) :
  exists r lines,
    _load_config config_file file w = (r, says lines w) /\
    (forall e, r = Raise e ->
       file = FileNotFoundError e \/ file = LoadError e \/
       file = Parsed (NoGet e)) /\
    (forall sections, file = Parsed (TopMapping sections) ->
       r = Return (default (Mapping ∅) (sections !! "modbus")) /\ lines = []).
Proof.
  destruct w as [i sp d out wr].
  destruct file as [e|e|[sections|e]]; simpl.
  - exists (Raise e). eexists. split; [reflexivity|].
    split; [intros e' [= <-]; auto|discriminate].
  - exists (Raise e). eexists. split; [reflexivity|].
    split; [intros e' [= <-]; auto|discriminate].
  - eexists. exists []. unfold says. simpl. rewrite app_nil_r.
    split; [reflexivity|]. split; [discriminate|].
    intros sections' [= <-]. auto.
  - exists (Raise e). eexists. split; [reflexivity|].
    split; [intros e' [= <-]; auto|discriminate].
Qed.

Lemma instructions_run (w : World T) :
  exists lines, instructions w = (Return tt, says lines w).
Proof.
  unfold instructions. rewrite !bind_print, bind_get_current_speed.
  rewrite !bind_print. unfold print, says.
  cbn [say instrument current_speed current_direction stdout wire].
  rewrite <- !app_assoc. eexists. reflexivity.
Qed.

Lemma boot_run (file : loaded V) opened (w : World T) :
  boot file opened w =
  match
    _load_config "modbus_config.yaml" file
      (say rule (say "Delta ASDA-AB Servo Controller - JOG Mode" (say rule w)))
  with
  | (Return config, w1) => connect config opened w1
  | (Raise e, w1) => (Raise e, w1)
  end.
Proof. reflexivity. Qed.

(** [main], stage by stage. *)
Lemma main_run (file : loaded V) opened keys :
  main file opened keys =
  match boot file opened __init__ with
  | (Raise e, w) => (Raise e, w)
  | (Return false, w) => (Return tt, w)
  | (Return true, w) =>
      match check_connection w with
      | (Return true, w1) =>
          let w2 := snd (instructions (snd (initialize_speed w1))) in
          let w3 := snd (command_loop keys w2) in
          match loop_end keys with
          | Quit => (Return tt, snd (close w3))
          | KeyboardInterrupt =>
              (Return tt,
               snd (close
                      (say (newline +:+ "⚠️  Программа прервана пользователем") w3)))
          | EOFError =>
              (Raise (Exception "EOF when reading a line"), snd (close w3))
          end
      | (_, w1) => (Return tt, snd (close w1))
      end
  end.
Proof.
  rewrite boot_run. unfold main. unfold bind at 1.
  change (banner __init__)
    with (@Return unit tt,
          say rule (say "Delta ASDA-AB Servo Controller - JOG Mode"
                        (say rule (@__init__ T)))).
  set (w0 := say rule (say _ (say rule __init__))).
  cbv beta iota. unfold bind at 1.
  destruct (_load_config "modbus_config.yaml" file w0) as [[config|e] w1];
    [|reflexivity].
  unfold bind at 1.
  destruct (connect_outcome config opened w1) as (b & i & lines & Hc & _).
  rewrite Hc. set (w2 := mkWorld i _ _ _ _).
  destruct b; cbv beta iota delta [negb]; [|reflexivity].
  unfold bind at 1.
  destruct (check_connection_returns w2) as [alive Ha].
  destruct (check_connection w2) as [r w3]. cbn [fst] in Ha. subst r.
  destruct alive; cbv beta iota delta [negb].
  - unfold bind at 1.
    pose proof (initialize_speed_returns w3) as Hi.
    destruct (initialize_speed w3) as [r w4]. cbn [fst] in Hi. subst r.
    cbv beta iota zeta. cbn [snd].
    destruct (instructions_run w4) as [lines' Hins].
    unfold bind at 1. rewrite Hins. cbv beta iota. cbn [snd].
    set (w5 := says lines' w4).
    unfold bind at 1.
    pose proof (command_loop_end keys w5) as He.
    destruct (command_loop keys w5) as [r w6]. cbn [fst] in He. subst r.
    cbn [snd]. cbv beta iota.
    destruct (loop_end keys); cbv beta iota.
    + unfold bind at 1. unfold ret at 1. cbv beta iota. unfold bind at 1.
      pose proof (close_returns w6) as Hcl.
      destruct (close w6) as [r w7]. cbn [fst] in Hcl. subst r. reflexivity.
    + rewrite bind_print. unfold bind at 1.
      pose proof (close_returns
                    (say (newline +:+ "⚠️  Программа прервана пользователем") w6))
        as Hcl.
      destruct (close _) as [r w7]. cbn [fst] in Hcl. subst r. reflexivity.
    + unfold bind at 1. unfold ret at 1. cbv beta iota. unfold bind at 1.
      pose proof (close_returns w6) as Hcl.
      destruct (close w6) as [r w7]. cbn [fst] in Hcl. subst r. reflexivity.
  - unfold bind at 1.
    pose proof (close_returns w3) as Hcl.
    destruct (close w3) as [r w7]. cbn [fst] in Hcl. subst r. reflexivity.
Qed.


(** What [boot] leaves: nothing on the line, the speed and the direction
    of the start, and an instrument when it answers [True]. *)
Lemma boot_outcome (file : loaded V) opened (w : World T) :
  exists r i lines,
    boot file opened w =
    (r, mkWorld i (current_speed w) (current_direction w)
                (stdout w ++ lines) (wire w)) /\
    (r = Return true -> is_Some i) /\
    (forall e, r = Raise e ->
       file = FileNotFoundError e \/ file = LoadError e \/
       file = Parsed (NoGet e)) /\
    (forall sections, file = Parsed (TopMapping sections) ->
       exists b, r = Return b).
Proof.
  rewrite boot_run.
  set (w0 := say rule (say _ (say rule w))).
  destruct (load_config_outcome "modbus_config.yaml" file w0)
    as (r & lines & Hl & Hraise & Hparsed).
  rewrite Hl. destruct r as [config|e].
  - destruct (connect_outcome config opened (says lines w0))
      as (b & i & lines' & Hc & Hi).
    rewrite Hc. exists (Return b), i. eexists. simpl.
    rewrite <- !app_assoc. split; [reflexivity|].
    split; [intros [= ->]; auto|]. split; [discriminate|eauto].
  - exists (Raise e), (instrument w). eexists. unfold says. simpl.
    rewrite <- !app_assoc. split; [reflexivity|].
    split; [discriminate|].
    split; [intros e0 [= <-]; apply Hraise; reflexivity|].
    intros sections Hs. destruct (Hparsed sections Hs) as [Hr _]. discriminate.
Qed.

(** What every stage of [main] keeps, [main] keeps. *)
Lemma main_keeps (I : World T -> Prop) :
  (forall i lines w,
     I w ->
     I (mkWorld i (current_speed w) (current_direction w)
                (stdout w ++ lines) (wire w))) ->
  (forall c w,
     In c (CheckConnection :: InitializeSpeed :: Close :: operator_calls) ->
     I w -> I (perform c w)) ->
  I __init__ ->
  forall (file : loaded V) opened keys, I (snd (main file opened keys)).
Proof.
  intros Hconsole Hcall Hinit file opened keys.
  assert (Hsay : forall line w, I w -> I (say line w)).
  { intros line w Hw. apply (Hconsole (instrument w) [line] w Hw). }
  assert (Hop : forall c w, In c operator_calls -> I w -> I (perform c w)).
  { intros c w Hin. apply Hcall. right. right. right. exact Hin. }
  rewrite main_run.
  destruct (boot_outcome file opened __init__) as (r & i & lines & Hb & _).
  rewrite Hb. pose proof (Hconsole i lines _ Hinit) as Hw.
  set (w := mkWorld i _ _ _ _) in *.
  destruct r as [[|]|e]; cbv beta iota; cbn [fst snd];
    [|exact Hw|exact Hw].
  pose proof (Hcall CheckConnection w ltac:(left; reflexivity) Hw) as Hw1.
  cbn [perform] in Hw1.
  assert (Hclose : forall v, I v -> I (snd (close v))).
  { intros v Hv. apply (Hcall Close v); [|exact Hv].
    right. right. left. reflexivity. }
  destruct (check_connection w) as [[[|]|e] w1]; cbv beta iota zeta;
    cbn [fst snd] in *; try (apply Hclose; exact Hw1).
  pose proof (Hcall InitializeSpeed w1 ltac:(right; left; reflexivity) Hw1)
    as Hw2.
  cbn [perform] in Hw2.
  destruct (instructions_run (snd (initialize_speed w1))) as [lines' Hi].
  rewrite Hi. cbn [snd].
  pose proof (Hconsole (instrument (snd (initialize_speed w1))) lines' _ Hw2)
    as Hw3.
  pose proof (command_loop_keeps I Hsay Hop keys _ Hw3) as Hw4.
  destruct (loop_end keys); cbv beta iota; cbn [fst snd]; apply Hclose; auto.
Qed.

(** X17: [main] leaves the drive stopped.  If it has put anything on the
    line at all, then, however the operator ended the session ([q],
    Ctrl-C, end of input) and also when the link check failed, the last
    two exchanges are the write of STOP (5000) and the write of the speed
    20, and the controller ends Stopped. *)
Theorem main_leaves_the_drive_stopped (file : loaded V) opened keys :
  let w := snd (main file opened keys) in
  wire w = [] \/
  (current_direction w = None /\
   exists before r1 r2,
     wire w = before ++ [Write JOG STOP r1; Write JOG 20 r2]).
Proof.
  cbv zeta. rewrite main_run.
  destruct (boot_outcome file opened __init__) as (r & i & lines & Hb & Hi & _).
  rewrite Hb. set (w := mkWorld i _ _ _ _).
  destruct r as [[|]|e]; cbv beta iota; cbn [fst snd];
    [|left; reflexivity|left; reflexivity].
  right. destruct (Hi eq_refl) as [t Ht].
  assert (Hclose : forall v : World T,
             is_Some (instrument v) ->
             current_direction (snd (close v)) = None /\
             exists before r1 r2,
               wire (snd (close v)) =
               before ++ [Write JOG STOP r1; Write JOG 20 r2]).
  { intros v [tv Hv]. destruct (close_wire tv v Hv) as (Hd & r1 & r2 & Hw).
    split; [exact Hd|]. exists (wire v), r1, r2. exact Hw. }
  assert (Hw : is_Some (instrument w)) by (subst w i; cbn [instrument]; eauto).
  pose proof (perform_instrument CheckConnection w Hw) as Hw1.
  cbn [perform] in Hw1.
  destruct (check_connection w) as [[[|]|e] w1]; cbv beta iota zeta;
    cbn [fst snd] in *; try (apply Hclose; exact Hw1).
  pose proof (perform_instrument InitializeSpeed w1 Hw1) as Hw2.
  cbn [perform] in Hw2.
  destruct (instructions_run (snd (initialize_speed w1))) as [lines' Hins].
  rewrite Hins. cbn [snd].
  assert (Hw4 : is_Some (instrument
                   (snd (command_loop keys
                           (says lines' (snd (initialize_speed w1))))))).
  { apply (command_loop_keeps (fun v => is_Some (instrument v))).
    - intros line v Hv. exact Hv.
    - intros c v _. apply perform_instrument.
    - exact Hw2. }
  destruct (loop_end keys); cbv beta iota; cbn [fst snd]; apply Hclose;
    exact Hw4.
Qed.

(** X18: whatever the configuration, the port, the line and the operator
    do, [main] puts on the line only reads of VERSION, ERROR and JOG and
    writes to the JOG register of a speed of 0..3000 or of one of the
    three command codes; and it ends with [current_speed] in 0..3000. *)
Theorem main_keeps_the_line_in_bounds (file : loaded V) opened keys :
  Forall (sanctioned []) (wire (snd (main file opened keys))) /\
  in_speed_range (current_speed (snd (main file opened keys))).
Proof.
  apply (main_keeps
           (fun w => Forall (sanctioned []) (wire w) /\
                     in_speed_range (current_speed w))).
  - intros i lines w Hw. exact Hw.
  - intros c w Hin [Hw Hs]. split; [|apply (perform_in_range c w Hs)].
    unfold operator_calls in Hin. simpl in Hin.
    destruct Hin as [<-|[<-|[<-|[<-|[<-|[<-|[<-|[<-|[]]]]]]]]];
      cbn [perform].
    + apply check_connection_sanctioned, Hw.
    + apply initialize_speed_sanctioned, Hw.
    + apply close_sanctioned, Hw.
    + apply jog_sanctioned; [|exact Hw]. right. left.
      unfold reserved_code. auto.
    + apply jog_sanctioned; [|exact Hw]. right. left.
      unfold reserved_code. auto.
    + apply stop_jog_sanctioned, Hw.
    + apply (set_jog_speed_sanctioned [] _ w Hw).
    + apply (set_jog_speed_sanctioned [] _ w Hw).
  - split; [constructor|].
    unfold in_speed_range, SPEED_MIN, SPEED_MAX. simpl. lia.
Qed.



Lemma command_loop_stops (last : keyboard) keys rest (w : World T) :
  last = Line "q" \/ last = CtrlC ->
  command_loop (keys ++ last :: rest) w = command_loop (keys ++ [last]) w.
Proof.
  intros Hlast. revert w.
  induction keys as [|[command|] keys IH]; intros w; simpl app.
  - destruct Hlast as [->| ->]; [|reflexivity].
    rewrite !command_loop_line. reflexivity.
  - rewrite !command_loop_line. cbv zeta. rewrite !IH. reflexivity.
  - reflexivity.
Qed.

Lemma loop_end_stops (last : keyboard) keys rest :
  last = Line "q" \/ last = CtrlC ->
  loop_end (keys ++ last :: rest) = loop_end (keys ++ [last]).
Proof.
  intros Hlast.
  induction keys as [|[command|] keys IH]; simpl.
  - destruct Hlast as [->| ->]; reflexivity.
  - rewrite IH. reflexivity.
  - reflexivity.
Qed.

(** X20: nothing that the operator types after the first [q] or Ctrl-C is
    read: [main] runs to the same answer and the same world whatever
    follows it in the input. *)
Theorem main_stops_at_quit (file : loaded V) opened last keys rest :
  last = Line "q" \/ last = CtrlC ->
  main file opened (keys ++ last :: rest) = main file opened (keys ++ [last]).
Proof.
  intros Hlast. rewrite !main_run.
  destruct (boot file opened __init__) as [[[|]|e] w]; [|reflexivity..].
  destruct (check_connection w) as [[[|]|e] w1]; [|reflexivity..].
  cbv zeta.
  rewrite (command_loop_stops last keys rest _ Hlast).
  rewrite (loop_end_stops last keys rest Hlast). reflexivity.
Qed.

(** X21: when the link check fails after a successful [connect], [main]
    still calls [close]: besides the reads of the check, the line carries
    the write of STOP and the write of the speed 20, sent to a drive that
    reported a fault or did not answer.  The speed is not read back and
    the operator is never prompted: the input plays no part. *)
Theorem main_closes_after_failed_link_check
    (file : loaded V) opened keys (w : World T) :
  boot file opened __init__ = (Return true, w) ->
  fst (check_connection w) = Return false ->
  main file opened keys = main file opened [] /\
  fst (main file opened keys) = Return tt /\
  current_direction (snd (main file opened keys)) = None /\
  exists r1 r2,
    wire (snd (main file opened keys)) =
    issued check_connection w ++ [Write JOG STOP r1; Write JOG 20 r2].
Proof.
  intros Hb Hc. rewrite !main_run, Hb.
  destruct (boot_outcome file opened __init__)
    as (r & i & lines & Hb' & Hi & _).
  rewrite Hb in Hb'. injection Hb' as <- Hw.
  destruct (Hi eq_refl) as [t Ht].
  assert (Hwire : wire w = []) by (rewrite Hw; reflexivity).
  assert (Hinst : is_Some (instrument w))
    by (rewrite Hw; cbn [instrument]; eauto).
  pose proof (perform_instrument CheckConnection w Hinst) as [t1 Ht1].
  cbn [perform] in Ht1. unfold issued. rewrite Hwire.
  change (drop (length (@nil exchange)) ?l) with l.
  destruct (check_connection w) as [[[|]|e] w1]; cbv beta iota;
    cbn [fst snd] in *; try discriminate.
  split; [reflexivity|]. split; [reflexivity|].
  destruct (close_wire t1 w1 Ht1) as (Hd & r1 & r2 & Hcw).
  split; [exact Hd|]. exists r1, r2. exact Hcw.
Qed.

Lemma connect_empty_mapping opened (w : World T) :
  exists lines, connect (@Mapping V ∅) opened w = (Return false, says lines w).
Proof.
  connect_unfold. destruct w as [i sp d out wr]. unfold says.
  rewrite lookup_empty.
  cbn [instrument current_speed current_direction stdout wire].
  rewrite <- !app_assoc. eexists. reflexivity.
Qed.

(** X22: a configuration file whose top-level mapping has no [modbus]
    entry gives the empty configuration (not an error); [connect] then
    fails on the key "port" and [main] returns without opening the
    instrument, sending anything or prompting the operator. *)
Theorem main_without_modbus_section
    (sections : gmap string (settings V)) opened keys :
  sections !! "modbus" = None ->
  (forall w : World T,
     _load_config "modbus_config.yaml" (Parsed (TopMapping sections)) w =
     (Return (Mapping ∅), w)) /\
  fst (main (Parsed (TopMapping sections)) opened keys) = Return tt /\
  instrument (snd (main (Parsed (TopMapping sections)) opened keys)) = None /\
  wire (snd (main (Parsed (TopMapping sections)) opened keys)) = [] /\
  main (Parsed (TopMapping sections)) opened keys =
  main (Parsed (TopMapping sections)) opened [].
Proof.
  intros Hs.
  assert (Hl : forall w : World T,
             _load_config "modbus_config.yaml" (Parsed (TopMapping sections)) w =
             (Return (Mapping ∅), w)).
  { intros w. unfold _load_config. rewrite Hs. reflexivity. }
  split; [exact Hl|].
  rewrite !main_run, boot_run, Hl.
  destruct (connect_empty_mapping opened
              (say rule (say "Delta ASDA-AB Servo Controller - JOG Mode"
                        (say rule (@__init__ T))))) as [lines Hc].
  rewrite Hc. auto.
Qed.


End HostFacts.

(** ** Concrete runs for the further facts *)

(** A configuration file with a complete [modbus] section. *)
Example good_file_settings :
  Forall (has_setting (Mapping modbus_section)) connection_keys.
Proof.
  unfold connection_keys.
  repeat apply List.Forall_cons; try apply List.Forall_nil;
    eexists; eexists; (split; [reflexivity|]); reflexivity.
Qed.

(** From Reverse, a confirmed [jog(FORWARD)] leaves Forward. *)
Lemma jog_command_sets_direction_witness :
  let w := world [Some 0] 20 (Some reverse) in
  fst (jog 4999 w) = Return true /\
  issued (jog 4999) w = [Write 1029 4999 (Return tt)] /\
  current_direction (snd (jog 4999 w)) = Some forward.
Proof.
  intros w.
  assert (Hok : succeeded (fst (write_register [Some 0] JOG 4999)) = true)
    by reflexivity.
  destruct (jog_command_sets_direction (H:=scripted) 4999 [Some 0] w eq_refl Hok)
    as (Hr & Hi & _ & Hf & _ & _).
  exact (conj Hr (conj Hi (Hf eq_refl))).
Defined.

(** Before [connect]: [jog(FORWARD)] answers [False], [close] does nothing. *)
Lemma unconnected_calls_fail_quietly_witness :
  fst (jog 4999 (@__init__ (list (option Z)))) = Return false /\
  wire (snd (jog 4999 (@__init__ (list (option Z))))) = [] /\
  close (@__init__ (list (option Z))) = (Return tt, __init__).
Proof.
  destruct (unconnected_calls_fail_quietly (H:=scripted) (@__init__ (list (option Z))) eq_refl)
    as (Hjog & _ & _ & _ & _ & Hclose).
  destruct (Hjog 4999) as (Hr & Hw & _ & _).
  exact (conj Hr (conj Hw Hclose)).
Defined.

(** Stopped, [set_jog_speed(100)]: one write, of 100. *)
Lemma set_jog_speed_while_stopped_witness :
  let w := world [Some 0; Some 0] 20 None in
  issued (set_jog_speed 100) w = [Write 1029 100 (Return tt)] /\
  current_direction (snd (set_jog_speed 100 w)) = None /\
  fst (set_jog_speed 100 w) = Return true.
Proof.
  intros w.
  exact (set_jog_speed_while_stopped (H:=scripted) 100 [Some 0; Some 0] w eq_refl eq_refl).
Defined.

(** 20 + 25 - 25 = 20, but from 2990 the step up is clamped: 2975. *)
Lemma increase_then_decrease_witness :
  current_speed
    (snd (decrease_speed 25
            (snd (increase_speed 25 (world [Some 0; Some 0] 20 None))))) = 20 /\
  current_speed
    (snd (decrease_speed 25
            (snd (increase_speed 25 (world [Some 0; Some 0] 2990 None)))))
  < 2990.
Proof.
  destruct (increase_then_decrease (H:=scripted) 25 (world [Some 0; Some 0] 20 None)
              eq_refl eq_refl) as (_ & Hback & _).
  destruct (increase_then_decrease (H:=scripted) 25 (world [Some 0; Some 0] 2990 None)
              eq_refl eq_refl) as (_ & _ & Hless).
  split.
  - apply Hback; simpl; lia.
  - apply Hless; simpl; lia.
Defined.

(** At 2990 a step of 25 up saturates at 3000. *)
Lemma speed_steps_saturate_witness :
  exists b,
    fst (increase_speed 25 (world [Some 0] 2990 None)) = Return b /\
    current_speed (snd (increase_speed 25 (world [Some 0] 2990 None))) =
      (if b then 3000 else 2990).
Proof.
  assert (Hk : 0 <= 25) by lia.
  assert (Hs : in_speed_range (current_speed (world [Some 0] 2990 None))).
  { unfold in_speed_range, SPEED_MIN, SPEED_MAX. simpl. lia. }
  destruct (speed_steps_saturate (H:=scripted) 25 (world [Some 0] 2990 None)
              Hk Hs) as [(b & Hr & Hv) _].
  exists b. exact (conj Hr Hv).
Defined.

(** After [close] the controller still holds its instrument. *)
Lemma instrument_is_never_released_witness :
  is_Some (instrument (run [Jog 4999; Close] (world [Some 0] 20 None))).
Proof.
  apply (instrument_is_never_released (H:=scripted) [Jog 4999; Close]
           (world [Some 0] 20 None)).
  exists [Some 0]. reflexivity.
Defined.

(** [connect] with the complete section and a port that opens. *)
Lemma connect_true_means_configured_witness :
  (exists t : list (option Z), Return [Some 0] = Return t) /\
  Forall (has_setting (Mapping modbus_section)) connection_keys /\
  stdout (snd (connect (Mapping modbus_section) (Return [Some 0]) __init__)) =
    ["✅ Успешное подключение к COM3 на скорости 9600 baud"].
Proof.
  destruct (connect_true_means_configured (H0:=scripted_host)
              (Mapping modbus_section) (Return [Some 0]) __init__ eq_refl)
    as (Ho & Hk & _ & _).
  split; [exact Ho|]. split; [exact Hk|]. reflexivity.
Defined.

(** The scripted port takes every attribute, the section is complete. *)
Lemma connect_succeeds_when_configured_witness :
  fst (connect (Mapping modbus_section) (Return [Some 0]) __init__) = Return true.
Proof.
  apply (connect_succeeds_when_configured (H0:=scripted_host)
           (Mapping modbus_section) [Some 0]).
  - intros t' name v. reflexivity.
  - exact good_file_settings.
Defined.

(** A session [w], [q]: what is typed after [q] changes nothing. *)
Lemma main_stops_at_quit_witness :
  let file := Parsed (TopMapping {["modbus" := Mapping modbus_section]}) in
  let line := [Some 258; Some 0; Some 150; Some 0; Some 0; Some 0] in
  main file (Return line) ([Line "w"] ++ Line "q" :: [Line "+"; Line "s"]) =
  main file (Return line) ([Line "w"] ++ [Line "q"]).
Proof.
  intros file line.
  apply (main_stops_at_quit (H:=scripted) (H0:=scripted_host)
           file (Return line) (Line "q") [Line "w"]).
  left. reflexivity.
Defined.

(** ERROR = 7 at start-up: two reads, then STOP and speed 20 all the same. *)
Lemma main_closes_after_failed_link_check_witness :
  let file := Parsed (TopMapping {["modbus" := Mapping modbus_section]}) in
  let line := [Some 258; Some 7; Some 0; Some 0] in
  wire (snd (main file (Return line) [Line "w"])) =
    [Read 0 (Return 258); Read 1 (Return 7);
     Write 1029 5000 (Return tt); Write 1029 20 (Return tt)] /\
  fst (main file (Return line) [Line "w"]) = Return tt.
Proof.
  intros file line.
  assert (Hb : boot file (Return line) __init__ =
               (Return true, snd (boot file (Return line) __init__)))
    by reflexivity.
  destruct (main_closes_after_failed_link_check
              (H:=scripted) (H0:=scripted_host)
              file (Return line) [Line "w"] _ Hb eq_refl)
    as (_ & Hr & _ & _).
  split; [reflexivity|exact Hr].
Defined.

(** An empty top-level mapping: [main] returns, nothing opened or sent. *)
Lemma main_without_modbus_section_witness :
  fst (main (Parsed (TopMapping (∅ : gmap string (settings string))))
            (Return [Some 0]) [Line "w"]) = Return tt /\
  wire (snd (main (Parsed (TopMapping (∅ : gmap string (settings string))))
                  (Return [Some 0]) [Line "w"])) = [].
Proof.
  assert (Hs : (∅ : gmap string (settings string)) !! "modbus" = None)
    by reflexivity.
  destruct (main_without_modbus_section (H:=scripted) (H0:=scripted_host)
              (∅ : gmap string (settings string)) (Return [Some 0]) [Line "w"]
              Hs) as (_ & Hr & _ & Hw & _).
  exact (conj Hr Hw).
Defined.
